(** * post-approver-bot: a model of the moderation loop and its checked properties

    The development follows the Go sources:
    - [internal/buttons/buttons.go]: the three button labels;
    - [internal/env/env.go]: [New], which reads the configuration;
    - [main.go]: the update loop with its [currentPost] slot and skip cache.

    Calls that leave the process (log lines, the Airtable query and patch,
    the Telegram send) are recorded in a trace; what the outside world
    answers is an input of each loop iteration. *)

From Stdlib Require Import ZArith Lia Ascii String List.
From stdpp Require Import base option list strings gmap.

Local Open Scope string_scope.
Local Open Scope Z_scope.

(** ** internal/buttons *)

Module buttons.

Record Button := New { text : string }.

Definition Text (b : Button) : string := text b.

Definition ApproveButton : Button := New "✔️ Approve".
Definition SkipButton : Button := New "👀 Skip".
Definition RejectButton : Button := New "❌ Reject".

End buttons.

(** ** internal/helpers *)

Module helpers.

(** Modelled from the spec: [helpers.IDContains] (package
    [internal/helpers] is not among the sources).  The spec calls the
    white list "an allow-listed set of sender identities", so the helper
    is membership of the identity in the slice. *)
Fixpoint IDContains (ids : list Z) (id : Z) : bool :=
  match ids with
  | [] => false
  | i :: rest => if Z.eqb i id then true else IDContains rest id
  end.

End helpers.

(** ** Go library functions used by [env.New] *)

Module strings.

(** [strings.Split(s, sep)] for a one-byte separator: the pieces between
    the separators, one more than there are separators; the empty string
    gives one empty piece. *)
Fixpoint Split (s : string) (sep : ascii) : list string :=
  match s with
  | EmptyString => [EmptyString]
  | String c rest =>
      if Ascii.eqb c sep then EmptyString :: Split rest sep
      else match Split rest sep with
           | piece :: more => String c piece :: more
           | [] => [String c EmptyString]
           end
  end.

End strings.

Module strconv.

Definition digit (c : ascii) : option Z :=
  let n := Z.of_N (N_of_ascii c) in
  if (48 <=? n) && (n <=? 57) then Some (n - 48) else None.

Fixpoint digits (s : string) (acc : Z) : option Z :=
  match s with
  | EmptyString => Some acc
  | String c rest =>
      match digit c with
      | Some d => digits rest (acc * 10 + d)
      | None => None
      end
  end.

(** The unsigned part: at least one character, decimal digits only. *)
Definition ParseUint (s : string) : option Z :=
  match s with
  | EmptyString => None
  | _ => digits s 0
  end.

(** [strconv.ParseInt(s, 10, 64)]; [None] stands for a non-nil [err]
    (syntax or range, the caller does not tell them apart). *)
Definition ParseInt (s : string) : option Z :=
  match s with
  | EmptyString => None
  | String c rest =>
      let neg := Ascii.eqb c "-" in
      let body := if Ascii.eqb c "+" || neg then rest else s in
      match ParseUint body with
      | None => None
      | Some un =>
          let cutoff := 2 ^ 63 in
          if negb neg && (cutoff <=? un) then None
          else if neg && (cutoff <? un) then None
          else Some (if neg then - un else un)
      end
  end.

End strconv.

(** ** internal/env *)

Module env.

Record Env := {
  TelegramToken : string;
  TelegramWhiteList : list Z;
  AirtableApiKey : string;
  AirtableBaseId : string;
  AirtableTableName : string
}.

(** The [for _, id := range sWhiteListIDs] loop: every piece is parsed and
    appended to the slice built so far; [None] is the [log.Fatal] exit. *)
Fixpoint parse_loop (sWhiteListIDs : list string) (whiteListIDs : list Z)
  : option (list Z) :=
  match sWhiteListIDs with
  | [] => Some whiteListIDs
  | id :: rest =>
      match strconv.ParseInt id with
      | None => None
      | Some i => parse_loop rest (whiteListIDs ++ [i])
      end
  end.

(** [make([]int64, n)]: a slice of [n] zeroes. *)
Definition make (n : nat) : list Z := replicate n 0.

Definition is_empty (s : string) : bool :=
  match s with EmptyString => true | _ => false end.

(** [New] over the process environment [Getenv]; [None] is an exit
    through [log.Fatalf] / [log.Fatal]. *)
Definition New (Getenv : string -> string) : option Env :=
  let TelegramToken := Getenv "TELEGRAM_TOKEN" in
  if is_empty TelegramToken then None else
  let sWhiteListIDs := strings.Split (Getenv "TELEGRAM_WHITELIST") "," in
  let whiteListIDs := make (length sWhiteListIDs) in
  match parse_loop sWhiteListIDs whiteListIDs with
  | None => None
  | Some whiteListIDs =>
      let AirtableApiKey := Getenv "AIRTABLE_API_KEY" in
      if is_empty AirtableApiKey then None else
      let AirtableBaseId := Getenv "AIRTABLE_BASE_ID" in
      if is_empty AirtableBaseId then None else
      let AirtableTableName := Getenv "AIRTABLE_TABLE_NAME" in
      if is_empty AirtableTableName then None else
      Some {| TelegramToken := TelegramToken;
              TelegramWhiteList := whiteListIDs;
              AirtableApiKey := AirtableApiKey;
              AirtableBaseId := AirtableBaseId;
              AirtableTableName := AirtableTableName |}
  end.

End env.

(** ** The Airtable client, as far as [main] uses it *)

Module airtable.

(** The values of a record's [Fields map[string]any].  The query asks for
    string formatting, so strings and checkbox booleans are what a field
    can hold here. *)
Inductive any :=
| AString (s : string)
| ABool (b : bool).

Record Record_ := {
  ID : string;
  Fields : gmap string any
}.

(** What the store does with a successful partial update (PATCH): the
    named fields take the new values, every other field stays. *)
Definition patch (changedFields stored : gmap string any) : gmap string any :=
  changedFields ∪ stored.

End airtable.

(** ** The skip cache ([ttlcache.Cache[string, bool]])

    Time is read off a clock in nanoseconds, as [time.Duration] counts.  An
    item carries the instant it expires at; the sweeper started by
    [cache.Start] removes an item once that instant has passed, which is
    rendered here by [Has] no longer seeing it. *)

Module ttlcache.

Record Item := { value : bool; expiresAt : Z }.

Record Cache := { ttl : Z; items : gmap string Item }.

Definition Hour : Z := 3600 * 1000000000.

(** [ttlcache.New(ttlcache.WithTTL(d))] *)
Definition New (d : Z) : Cache := {| ttl := d; items := ∅ |}.

Definition Has (c : Cache) (now : Z) (key : string) : bool :=
  match items c !! key with
  | Some it => now <=? expiresAt it
  | None => false
  end.

(** [cache.Set(key, v, ttlcache.DefaultTTL)]: the cache's own duration. *)
Definition Set_DefaultTTL (c : Cache) (now : Z) (key : string) (v : bool) : Cache :=
  {| ttl := ttl c;
     items := <[key := {| value := v; expiresAt := now + ttl c |}]> (items c) |}.

End ttlcache.

(** ** The Telegram client, as far as [main] uses it *)

Module tgbotapi.

Record Chat := { ID : Z }.

(** [IsCommand] and [Command] are what the library's methods of those
    names answer for the message. *)
Record Message := {
  Chat_ : Chat;
  Text : string;
  IsCommand : bool;
  Command : string
}.

(** An update carries a message or something else (an edited message, a
    channel post, a callback...), whose chat, if any, is [OtherChat]. *)
Record Update := {
  Message_ : option Message;
  OtherChat : option Chat
}.

Definition FromChat (u : Update) : option Chat :=
  match Message_ u with
  | Some m => Some (Chat_ m)
  | None => OtherChat u
  end.

Record ReplyKeyboardMarkup := {
  Keyboard : list (list string);
  OneTimeKeyboard : bool
}.

Definition NewOneTimeReplyKeyboard (rows : list (list string)) : ReplyKeyboardMarkup :=
  {| Keyboard := rows; OneTimeKeyboard := true |}.

Record MessageConfig := {
  ChatID : Z;
  MsgText : string;
  ReplyMarkup : option ReplyKeyboardMarkup
}.

Definition NewMessage (chatID : Z) (text : string) : MessageConfig :=
  {| ChatID := chatID; MsgText := text; ReplyMarkup := None |}.

End tgbotapi.

(** ** fmt *)

Module fmt.

(** The verb [%s] applied to a looked-up field. *)
Definition verb_s (v : option airtable.any) : string :=
  match v with
  | Some (airtable.AString s) => s
  | Some (airtable.ABool true) => "%!s(bool=true)"
  | Some (airtable.ABool false) => "%!s(bool=false)"
  | None => "%!s(<nil>)"
  end.

Definition newline : string := String (ascii_of_nat 10) EmptyString.

End fmt.

(** ** main.go *)

Module main.

Import tgbotapi.

Definition oneTimePostKB : ReplyKeyboardMarkup :=
  NewOneTimeReplyKeyboard
    [ [buttons.Text buttons.ApproveButton; buttons.Text buttons.RejectButton];
      [buttons.Text buttons.SkipButton] ].

(** The variables the loop keeps between two updates. *)
Record State := {
  currentPost : option airtable.Record_;
  cache : ttlcache.Cache
}.

(** The lines written with [log.Printf] / [log.Panic]. *)
Inductive LogLine :=
| got_update_from_unknown_user (update : Update)
| got_command (command : string)
| got_text (text : string)
| error_while_approving (err : string)
| error_while_rejecting (err : string)
| panic_line (err : string).

(** What the process does towards the outside, in order. *)
Inductive Call :=
| Log (l : LogLine)
| GetRecords_Do
| UpdateRecordPartial (id : string) (changedFields : gmap string airtable.any)
| Send (msg : MessageConfig).

(** A call on the spreadsheet store. *)
Definition is_store_call (c : Call) : bool :=
  match c with
  | GetRecords_Do | UpdateRecordPartial _ _ => true
  | _ => false
  end.

(** A call that leaves the process towards a collaborator (chat platform
    or store); log lines stay local. *)
Definition is_outbound (c : Call) : bool :=
  match c with
  | Log _ => false
  | _ => true
  end.

(** The ways an iteration ends the process. *)
Inductive Panic :=
| nil_dereference
| type_assertion
| records_index_out_of_range
| log_Panic (err : string).

(** What the collaborators answer during one iteration, and the clock:
    the query's error or records, the partial update's error (if any) and
    the records its response lists, the send's error (if any). *)
Record World := {
  now : Z;
  Do_answer : string + list airtable.Record_;
  UpdateRecordPartial_err : option string;
  UpdateRecordPartial_Records : list airtable.Record_;
  Send_err : option string
}.

(** *** State, trace and panic, threaded through the statements *)

Inductive Outcome (A : Type) :=
| Returned (a : A)
| Panicked (p : Panic).
Arguments Returned {A} a.
Arguments Panicked {A} p.

Record Run (A : Type) := mkRun {
  outcome : Outcome A;
  final : State;
  calls : list Call
}.
Arguments mkRun {A}.
Arguments outcome {A}.
Arguments final {A}.
Arguments calls {A}.

Definition M (A : Type) : Type := State -> Run A.

Definition ret {A} (a : A) : M A := fun s => mkRun (Returned a) s [].

Definition bind {A B} (m : M A) (k : A -> M B) : M B :=
  fun s =>
    let r := m s in
    match outcome r with
    | Returned a =>
        let r' := k a (final r) in
        mkRun (outcome r') (final r') (calls r ++ calls r')
    | Panicked p => mkRun (Panicked p) (final r) (calls r)
    end.

#[local] Instance M_ret : MRet M := @ret.
#[local] Instance M_bind : MBind M := fun A B k m => bind m k.

Definition panic {A} (p : Panic) : M A := fun s => mkRun (Panicked p) s [].
Definition call (c : Call) : M unit := fun s => mkRun (Returned tt) s [c].
Definition get_currentPost : M (option airtable.Record_) :=
  fun s => mkRun (Returned (currentPost s)) s [].
Definition set_currentPost (p : option airtable.Record_) : M unit :=
  fun s => mkRun (Returned tt) {| currentPost := p; cache := cache s |} [].
Definition get_cache : M ttlcache.Cache :=
  fun s => mkRun (Returned (cache s)) s [].
Definition set_cache (c : ttlcache.Cache) : M unit :=
  fun s => mkRun (Returned tt) {| currentPost := currentPost s; cache := c |} [].

(** [log.Panic(err)] *)
Definition log_panic {A} (err : string) : M A :=
  call (Log (panic_line err));; panic (log_Panic err).

(** [p.Fields] on the pointer [p] *)
Definition deref (p : option airtable.Record_) : M airtable.Record_ :=
  match p with
  | Some r => ret r
  | None => panic nil_dereference
  end.

(** [v.(string)] *)
Definition assert_string (v : option airtable.any) : M string :=
  match v with
  | Some (airtable.AString s) => ret s
  | _ => panic type_assertion
  end.

(** [record.Fields["guid"]] as the option the map lookup gives *)
Definition guid (record : airtable.Record_) : option airtable.any :=
  airtable.Fields record !! "guid".

(** *** The [getpost] command (lines 87-104) *)

(** The [for i, record := range records.Records] loop. *)
Fixpoint range_Records (w : World) (records : list airtable.Record_) : M unit :=
  match records with
  | [] => ret tt
  | record :: rest =>
      g ← assert_string (guid record);
      c ← get_cache;
      if ttlcache.Has c (now w) g then range_Records w rest
      else set_currentPost (Some record)
  end.

Definition post_text (p : airtable.Record_) : string :=
  "Пост: " ++ fmt.verb_s (airtable.Fields p !! "Title") ++ fmt.newline
    ++ fmt.verb_s (airtable.Fields p !! "guid").

Definition getpost (w : World) (msg : MessageConfig) : M MessageConfig :=
  call GetRecords_Do;;
  match Do_answer w with
  | inl err => log_panic err
  | inr records =>
      range_Records w records;;
      cp ← get_currentPost;
      p ← deref cp;
      ret {| ChatID := ChatID msg;
             MsgText := post_text p;
             ReplyMarkup := Some oneTimePostKB |}
  end.

(** *** The buttons (lines 114-138) *)

Definition with_text (msg : MessageConfig) (t : string) : MessageConfig :=
  {| ChatID := ChatID msg; MsgText := t; ReplyMarkup := ReplyMarkup msg |}.

Definition approve_fields : gmap string airtable.any :=
  {[ "IsApproved" := airtable.ABool true;
     "IsRejected" := airtable.ABool false;
     "ToInvistigate" := airtable.ABool false ]}.

Definition reject_fields : gmap string airtable.any :=
  {[ "IsRejected" := airtable.ABool true;
     "IsApproved" := airtable.ABool false;
     "ToInvistigate" := airtable.ABool false ]}.

(** [currentPost.UpdateRecordPartial(changedFields)]: the method reads
    the receiver's [ID] to build the request and sends it; it returns the
    error if there is one, and otherwise takes [response.Records[0]], the
    first of [UpdateRecordPartial_Records], which panics when the response
    lists no record. *)
Definition do_UpdateRecordPartial (w : World)
    (changedFields : gmap string airtable.any) : M (option string) :=
  cp ← get_currentPost;
  r ← deref cp;
  call (UpdateRecordPartial (airtable.ID r) changedFields);;
  match UpdateRecordPartial_err w with
  | Some err => ret (Some err)
  | None =>
      match UpdateRecordPartial_Records w with
      | [] => panic records_index_out_of_range
      | _ :: _ => ret None
      end
  end.

Definition error_text (err : string) : string := "Произошла ошибка: " ++ err.

Definition approve (w : World) (msg : MessageConfig) : M MessageConfig :=
  let msg := with_text msg "Пост принят" in
  err ← do_UpdateRecordPartial w approve_fields;
  match err with
  | Some e =>
      call (Log (error_while_approving e));;
      set_currentPost None;;
      ret (with_text msg (error_text e))
  | None => ret msg
  end.

Definition reject (w : World) (msg : MessageConfig) : M MessageConfig :=
  let msg := with_text msg "Пост отклонен" in
  err ← do_UpdateRecordPartial w reject_fields;
  match err with
  | Some e =>
      call (Log (error_while_rejecting e));;
      set_currentPost None;;
      ret (with_text msg (error_text e))
  | None => ret msg
  end.

Definition skip (w : World) (msg : MessageConfig) : M MessageConfig :=
  let msg := with_text msg "Пост пропущен" in
  cp ← get_currentPost;
  p ← deref cp;
  g ← assert_string (guid p);
  c ← get_cache;
  set_cache (ttlcache.Set_DefaultTTL c (now w) g true);;
  set_currentPost None;;
  ret msg.

Definition unsupported_text : string := "Кнопка не поддерживается".

Definition unsupported (msg : MessageConfig) : M MessageConfig :=
  set_currentPost None;;
  ret (with_text msg unsupported_text).

(** *** One turn of [for update := range updates] (lines 70-145) *)

Definition on_command (w : World) (command : string) (msg : MessageConfig)
  : M MessageConfig :=
  if String.eqb command "start" then ret (with_text msg "Hi!")
  else if String.eqb command "getpost" then getpost w msg
  else if String.eqb command "help" then
    ret (with_text msg "I understand /sayhi and /status.")
  else if String.eqb command "status" then ret (with_text msg "I'm ok.")
  else ret (with_text msg "I don't know that command").

Definition on_text (w : World) (text : string) (msg : MessageConfig)
  : M MessageConfig :=
  if String.eqb text (buttons.Text buttons.ApproveButton) then approve w msg
  else if String.eqb text (buttons.Text buttons.RejectButton) then reject w msg
  else if String.eqb text (buttons.Text buttons.SkipButton) then skip w msg
  else unsupported msg.

Definition bot_Send (w : World) (msg : MessageConfig) : M unit :=
  call (Send msg);;
  match Send_err w with
  | Some err => log_panic err
  | None => ret tt
  end.

(** Lines 77-144: the message is prepared, filled in by the command or
    the text, and sent. *)
Definition handle (w : World) (m : Message) : M unit :=
  let msg := NewMessage (ID (Chat_ m)) "" in
  msg ← (if IsCommand m
         then call (Log (got_command (Command m)));;
              on_command w (Command m) msg
         else call (Log (got_text (Text m)));;
              on_text w (Text m) msg);
  bot_Send w msg.

Definition iteration (envVars : env.Env) (w : World) (update : Update) : M unit :=
  match FromChat update with
  | None => panic nil_dereference
  | Some chat =>
      if negb (helpers.IDContains (env.TelegramWhiteList envVars) (ID chat))
      then call (Log (got_update_from_unknown_user update))
      else
        match Message_ update with
        | None => panic nil_dereference
        | Some m => handle w m
        end
  end.

(** The loop over the updates channel, as long as it delivers. *)
Fixpoint loop (envVars : env.Env) (updates : list (World * Update)) : M unit :=
  match updates with
  | [] => ret tt
  | (w, update) :: rest => iteration envVars w update;; loop envVars rest
  end.

(** The state the loop starts in (lines 57-59 and 68). *)
Definition init : State :=
  {| currentPost := None; cache := ttlcache.New (24 * ttlcache.Hour) |}.

End main.

(** ** The Airtable sample program (the second file of package [main])

    Of this file the index manager, the paged sending loop shared by
    [addOrders] and [updateOrders], and the client constructor with its
    options are modelled. *)

Module airsample.

(** Go's [int] on a 64-bit platform: sums wrap around. *)
Definition int (z : Z) : Z := (z + 2 ^ 63) mod 2 ^ 64 - 2 ^ 63.

Definition maxUpdates : Z := 10.

Record IndexMgr := { From : Z; To : Z; Last : Z }.

Definition next (im : IndexMgr) : IndexMgr :=
  let From' := int (From im + maxUpdates) in
  let To' := int (To im + maxUpdates) in
  {| From := From';
     To := if Last im <? To' then Last im else To';
     Last := Last im |}.

Definition NewIndexMgr (last : Z) : IndexMgr :=
  {| From := 0;
     To := if last <? maxUpdates then last else maxUpdates;
     Last := last |}.

(** [len(s)] *)
Definition len {A} (s : list A) : Z := Z.of_nat (length s).

(** The slice expression [s[lo:hi]] on a slice whose capacity is its
    length (a slice literal, as in [addOrders] and [updateOrders]);
    [None] is the run-time panic on indexes out of range. *)
Definition slice {A} (s : list A) (lo hi : Z) : option (list A) :=
  if (0 <=? lo) && (lo <=? hi) && (hi <=? len s)
  then Some (take (Z.to_nat (hi - lo)) (drop (Z.to_nat lo) s))
  else None.

(** How the sending loop ends. *)
Inductive Ended (A : Type) :=
| finished (results : list A)
| index_out_of_range
| log_Panicln (err : string)
| out_of_fuel.
Arguments finished {A} results.
Arguments index_out_of_range {A}.
Arguments log_Panicln {A} err.
Arguments out_of_fuel {A}.

(** The contents of the requests made, in order, and the end. *)
Record Pages (A : Type) := mkPages {
  sent : list (list A);
  ended : Ended A
}.
Arguments mkPages {A}.
Arguments sent {A}.
Arguments ended {A}.

Section Paging.

Context {A : Type}.

(** What [Add] (resp. [Update]) answers to the [k]-th request with the
    given records: an error, or the records of the response. *)
Variable answer : nat -> list A -> string + list A.

Variable orders : list A.

(** [for indxer.From < len(orders) { ... indxer.next() }] *)
Fixpoint pages_loop (fuel k : nat) (indxer : IndexMgr) (results : list A)
  : Pages A :=
  match fuel with
  | O => mkPages [] out_of_fuel
  | S fuel' =>
      if From indxer <? len orders then
        match slice orders (From indxer) (To indxer) with
        | None => mkPages [] index_out_of_range
        | Some content =>
            match answer k content with
            | inl err => mkPages [content] (log_Panicln err)
            | inr records =>
                let r := pages_loop fuel' (S k) (next indxer)
                           (results ++ records) in
                mkPages (content :: sent r) (ended r)
            end
        end
      else mkPages [] (finished results)
  end.

(** The body of [addOrders] and of [updateOrders] up to the printing of
    the results; the loop runs at most once per record, which the fuel
    allows for. *)
Definition send_in_pages : Pages A :=
  pages_loop (S (length orders)) 0 (NewIndexMgr (len orders)) [].

End Paging.

(** The client and its options; durations in nanoseconds. *)
Record AirClient := {
  client_Timeout : Z;
  BaseId : string;
  TableId : string;
  ApiKey : string;
  requestDelay : Z
}.

Definition Option_ : Type := AirClient -> AirClient.

Definition Second : Z := 1000000000.
Definition Millisecond : Z := 1000000.

Definition WithTimeout (timeout : Z) : Option_ :=
  fun ac => {| client_Timeout := timeout; BaseId := BaseId ac;
               TableId := TableId ac; ApiKey := ApiKey ac;
               requestDelay := requestDelay ac |}.

Definition WithRequestDelay (delay : Z) : Option_ :=
  fun ac => {| client_Timeout := client_Timeout ac; BaseId := BaseId ac;
               TableId := TableId ac; ApiKey := ApiKey ac;
               requestDelay := delay |}.

Definition NewAirClient (baseId apiKey : string) (opts : list Option_) : AirClient :=
  fold_left (fun client opt => opt client) opts
    {| client_Timeout := Second * 120; BaseId := baseId; TableId := "";
       ApiKey := apiKey; requestDelay := 200 * Millisecond |}.

End airsample.

(** ** Concrete configurations, records and updates used in the examples *)

Module Sample.

Import main tgbotapi.

Definition Getenv (name : string) : string :=
  if String.eqb name "TELEGRAM_TOKEN" then "110201543:AAHdqTcvCH1vGWJxfSeofSAs0K5PALDsaw"
  else if String.eqb name "TELEGRAM_WHITELIST" then "12,-7,+3"
  else if String.eqb name "AIRTABLE_API_KEY" then "keyXXXXXXXXXXXXXX"
  else if String.eqb name "AIRTABLE_BASE_ID" then "appXXXXXXXXXXXXXX"
  else if String.eqb name "AIRTABLE_TABLE_NAME" then "posts"
  else "".

Definition envVars : env.Env :=
  {| env.TelegramToken := Getenv "TELEGRAM_TOKEN";
     env.TelegramWhiteList := [0; 0; 0; 12; -7; 3];
     env.AirtableApiKey := Getenv "AIRTABLE_API_KEY";
     env.AirtableBaseId := Getenv "AIRTABLE_BASE_ID";
     env.AirtableTableName := Getenv "AIRTABLE_TABLE_NAME" |}.

Definition post (id title g : string) : airtable.Record_ :=
  {| airtable.ID := id;
     airtable.Fields := {[ "Title" := airtable.AString title;
                           "guid" := airtable.AString g ]} |}.

Definition postA : airtable.Record_ := post "recA" "First" "guid-a".
Definition postB : airtable.Record_ := post "recB" "Second" "guid-b".

Definition operator : Chat := {| ID := 12 |}.
Definition stranger : Chat := {| ID := 99 |}.

Definition command_from (c : Chat) (name : string) : Update :=
  {| Message_ := Some {| Chat_ := c; Text := "/" ++ name;
                         IsCommand := true; Command := name |};
     OtherChat := None |}.

Definition text_from (c : Chat) (t : string) : Update :=
  {| Message_ := Some {| Chat_ := c; Text := t;
                         IsCommand := false; Command := "" |};
     OtherChat := None |}.

(** A world in which every call succeeds and the view lists [records]. *)
Definition calm (t : Z) (records : list airtable.Record_) : World :=
  {| now := t; Do_answer := inr records;
     UpdateRecordPartial_err := None;
     UpdateRecordPartial_Records := [postA]; Send_err := None |}.

(** A world in which the store refuses every call with [err]. *)
Definition store_down (t : Z) (err : string) : World :=
  {| now := t; Do_answer := inl err;
     UpdateRecordPartial_err := Some err;
     UpdateRecordPartial_Records := []; Send_err := None |}.

Definition pending (p : airtable.Record_) : State :=
  {| currentPost := Some p; cache := cache init |}.

(** The state right after [g] was skipped at instant [t]. *)
Definition skipped (t : Z) (g : string) : State :=
  {| currentPost := None;
     cache := ttlcache.Set_DefaultTTL (cache init) t g true |}.

Definition getpost_message : Message :=
  {| Chat_ := operator; Text := "/getpost";
     IsCommand := true; Command := "getpost" |}.

Definition button_message (b : buttons.Button) : Message :=
  {| Chat_ := operator; Text := buttons.Text b;
     IsCommand := false; Command := "" |}.

(** The operator fetches at instant 0 and gets [postA]. *)
Definition first_fetch : World * Update :=
  (calm 0 [postA; postB], command_from operator "getpost").

(** The operator skips at instant 100. *)
Definition skip_at_100 : World * Update :=
  (calm 100 [], text_from operator (buttons.Text buttons.SkipButton)).

Definition fetch_at (t : Z) : World * Update :=
  (calm t [postA; postB], command_from operator "getpost").

End Sample.

(** ** Vocabulary of the statements *)

Module Spec.

Import main.

(** The record carries a string identifier that the skip cache holds at
    instant [t]. *)
Definition cached (c : ttlcache.Cache) (t : Z) (r : airtable.Record_) : bool :=
  match guid r with
  | Some (airtable.AString g) => ttlcache.Has c t g
  | _ => false
  end.

(** The record carries a string identifier that the skip cache does not
    hold at instant [t]. *)
Definition absent (c : ttlcache.Cache) (t : Z) (r : airtable.Record_) : bool :=
  match guid r with
  | Some (airtable.AString g) => negb (ttlcache.Has c t g)
  | _ => false
  end.

Definition has_guid (r : airtable.Record_) : bool :=
  match guid r with
  | Some (airtable.AString _) => true
  | _ => false
  end.

(** [p] is the first of [records], in their order, that is [absent]:
    everything before it is [cached]. *)
Definition first_absent (c : ttlcache.Cache) (t : Z)
    (records : list airtable.Record_) (p : airtable.Record_) : Prop :=
  exists pre post,
    records = (pre ++ p :: post)%list /\
    Forall (fun r => cached c t r = true) pre /\
    absent c t p = true.

(** The scan stops on a record whose identifier is not a string. *)
Definition stops_on_bad_guid (c : ttlcache.Cache) (t : Z)
    (records : list airtable.Record_) : Prop :=
  exists pre p post,
    records = (pre ++ p :: post)%list /\
    Forall (fun r => cached c t r = true) pre /\
    has_guid p = false.

(** The sender of the update is on the white list and sent a message. *)
Definition allowed (envVars : env.Env) (update : tgbotapi.Update)
    (m : tgbotapi.Message) : Prop :=
  tgbotapi.Message_ update = Some m /\
  helpers.IDContains (env.TelegramWhiteList envVars)
    (tgbotapi.ID (tgbotapi.Chat_ m)) = true.

Definition store_calls (cs : list Call) : list Call := List.filter is_store_call cs.
Definition outbound_calls (cs : list Call) : list Call := List.filter is_outbound cs.

(** What an allowed turn logs first: the command or the text. *)
Definition first_line (m : tgbotapi.Message) : Call :=
  Log (if tgbotapi.IsCommand m then got_command (tgbotapi.Command m)
       else got_text (tgbotapi.Text m)).

(** The two decisions that write to the store. *)
Inductive Decision := Approve | Reject.

Definition button_of (d : Decision) : buttons.Button :=
  match d with
  | Approve => buttons.ApproveButton
  | Reject => buttons.RejectButton
  end.

Definition fields_of (d : Decision) : gmap string airtable.any :=
  match d with
  | Approve => approve_fields
  | Reject => reject_fields
  end.

Definition confirmation_of (d : Decision) : string :=
  match d with
  | Approve => "Пост принят"
  | Reject => "Пост отклонен"
  end.

Definition error_line_of (d : Decision) (err : string) : LogLine :=
  match d with
  | Approve => error_while_approving err
  | Reject => error_while_rejecting err
  end.

(** The boolean triple (approved, rejected, under investigation) of a
    record's fields. *)
Definition triple (fields : gmap string airtable.any)
  : option airtable.any * option airtable.any * option airtable.any :=
  (fields !! "IsApproved", fields !! "IsRejected", fields !! "ToInvistigate").

Definition triple_of (d : Decision)
  : option airtable.any * option airtable.any * option airtable.any :=
  match d with
  | Approve => (Some (airtable.ABool true), Some (airtable.ABool false),
                Some (airtable.ABool false))
  | Reject => (Some (airtable.ABool false), Some (airtable.ABool true),
               Some (airtable.ABool false))
  end.

Definition is_button (text : string) : bool :=
  String.eqb text (buttons.Text buttons.ApproveButton)
  || String.eqb text (buttons.Text buttons.RejectButton)
  || String.eqb text (buttons.Text buttons.SkipButton).

(** The states the loop can be in: [init] and what any updates, with any
    answers of the collaborators, make of it. *)
Definition reachable (envVars : env.Env) (s : State) : Prop :=
  exists updates, s = final (loop envVars updates init).

(** The default expiry of the skip cache, in nanoseconds. *)
Definition day : Z := 24 * ttlcache.Hour.

(** All the turns happen at or after [t0] and before [t0 + day]. *)
Definition within_day (t0 : Z) (updates : list (World * tgbotapi.Update)) : Prop :=
  Forall (fun ev => t0 <= now (fst ev) < t0 + day) updates.

(** The invariant kept during the day after [g] was skipped at [t0]. *)
Definition excluded (g : string) (t0 : Z) (s : State) : Prop :=
  ttlcache.ttl (cache s) = day /\
  ttlcache.items (cache s) !! g
  = Some {| ttlcache.value := true; ttlcache.expiresAt := t0 + day |} /\
  forall q, currentPost s = Some q -> guid q <> Some (airtable.AString g).

(** The invariant of every reachable state. *)
Definition well_formed (s : State) : Prop :=
  ttlcache.ttl (cache s) = day /\
  forall p, currentPost s = Some p -> has_guid p = true.

(** The messages handed to [bot.Send] among the calls. *)
Definition is_send (c : Call) : bool :=
  match c with
  | Send _ => true
  | _ => false
  end.

Definition sends (cs : list Call) : list Call := List.filter is_send cs.

(** The index manager at the [i]-th page of [n] records. *)
Definition page (n : Z) (i : nat) : airsample.IndexMgr :=
  {| airsample.From := 10 * Z.of_nat i;
     airsample.To := Z.min (10 * Z.of_nat i + 10) n;
     airsample.Last := n |}.

(** The records of the [i]-th page: ten of them from the [10 i]-th on, or
    what is left. *)
Definition page_content {A} (orders : list A) (i : nat) : list A :=
  take 10 (drop (10 * i) orders).

(** The option is one of the two the file defines. *)
Definition known_option (opt : airsample.Option_) : Prop :=
  (exists t, opt = airsample.WithTimeout t)
  \/ (exists d, opt = airsample.WithRequestDelay d).

End Spec.

Import main tgbotapi Spec.

(** * Properties *)

(** ** The configuration *)

Lemma Split_not_nil (s : string) (sep : ascii) : strings.Split s sep <> [].
Proof.
  destruct s as [|c rest]; simpl; [discriminate|].
  destruct (Ascii.eqb c sep); [discriminate|].
  destruct (strings.Split rest sep); discriminate.
Qed.

Lemma parse_loop_appends (pieces : list string) (ids acc : list Z) :
  Forall2 (fun piece i => strconv.ParseInt piece = Some i) pieces ids ->
  env.parse_loop pieces acc = Some (acc ++ ids)%list.
Proof.
  intros H. revert acc.
  induction H as [|piece i pieces ids Hp _ IH]; intros acc; simpl.
  - by rewrite app_nil_r.
  - rewrite Hp, IH. by rewrite <- app_assoc.
Qed.

Lemma IDContains_In (ids : list Z) (id : Z) :
  helpers.IDContains ids id = true <-> In id ids.
Proof.
  induction ids as [|i rest IH]; simpl; [split; [discriminate | tauto]|].
  destruct (Z.eqb_spec i id) as [->|Hne]; [tauto|].
  rewrite IH. split; [tauto | intros [?|?]; congruence].
Qed.

Lemma is_empty_false (s : string) : s <> "" -> env.is_empty s = false.
Proof. by destruct s. Qed.

(** C10: when TELEGRAM_WHITELIST splits at its commas into n pieces that
    all parse, [env.New] returns a white list of length 2n: n zeroes,
    then the n parsed numbers; hence chat identity 0 passes the check of
    the update loop. *)
Theorem New_whitelist_zero_padded (Getenv : string -> string) (ids : list Z) :
  Getenv "TELEGRAM_TOKEN" <> "" ->
  Getenv "AIRTABLE_API_KEY" <> "" ->
  Getenv "AIRTABLE_BASE_ID" <> "" ->
  Getenv "AIRTABLE_TABLE_NAME" <> "" ->
  Forall2 (fun piece i => strconv.ParseInt piece = Some i)
          (strings.Split (Getenv "TELEGRAM_WHITELIST") ",") ids ->
  exists e,
    env.New Getenv = Some e /\
    env.TelegramWhiteList e = (replicate (length ids) 0 ++ ids)%list /\
    length (env.TelegramWhiteList e) = (2 * length ids)%nat /\
    take (length ids) (env.TelegramWhiteList e) = replicate (length ids) 0 /\
    drop (length ids) (env.TelegramWhiteList e) = ids /\
    helpers.IDContains (env.TelegramWhiteList e) 0 = true.
Proof.
  intros Htok Hkey Hbase Htable Hparse.
  pose proof (Forall2_length _ _ _ Hparse) as Hlen.
  unfold env.New.
  rewrite (is_empty_false _ Htok), (is_empty_false _ Hkey),
    (is_empty_false _ Hbase), (is_empty_false _ Htable).
  rewrite (parse_loop_appends _ ids _ Hparse).
  eexists; split; [reflexivity|]. simpl. unfold env.make. rewrite Hlen.
  split; [reflexivity|].
  split; [rewrite length_app, length_replicate; lia|].
  split; [by rewrite take_app_length' by (by rewrite length_replicate)|].
  split; [by rewrite drop_app_length' by (by rewrite length_replicate)|].
  apply IDContains_In, in_or_app. left.
  destruct ids as [|i ids'].
  - apply Forall2_nil_inv_r in Hparse. by apply Split_not_nil in Hparse.
  - simpl. by left.
Qed.

Lemma New_whitelist_zero_padded_witness :
  exists e,
    env.New Sample.Getenv = Some e /\
    env.TelegramWhiteList e = (replicate 3 0 ++ [12; -7; 3])%list /\
    length (env.TelegramWhiteList e) = 6%nat /\
    take 3 (env.TelegramWhiteList e) = replicate 3 0 /\
    drop 3 (env.TelegramWhiteList e) = [12; -7; 3] /\
    helpers.IDContains (env.TelegramWhiteList e) 0 = true.
Proof.
  apply (New_whitelist_zero_padded Sample.Getenv [12; -7; 3]);
    try (vm_compute; discriminate).
  vm_compute. repeat constructor.
Defined.

(** ** The update loop, statement by statement *)

Ltac run_monad :=
  cbv [mbind M_bind mret M_ret bind ret call panic log_panic get_currentPost
       set_currentPost get_cache set_cache deref assert_string];
  cbn [outcome final calls currentPost cache app].

Lemma range_Records_cases (w : World) (records : list airtable.Record_) (s : State) :
  (exists p,
      first_absent (cache s) (now w) records p /\
      range_Records w records s
      = mkRun (Returned tt) {| currentPost := Some p; cache := cache s |} [])
  \/ (Forall (fun r => cached (cache s) (now w) r = true) records /\
      range_Records w records s = mkRun (Returned tt) s [])
  \/ (stops_on_bad_guid (cache s) (now w) records /\
      range_Records w records s = mkRun (Panicked type_assertion) s []).
Proof.
  induction records as [|record rest IH].
  - right; left. split; [constructor | reflexivity].
  - cbn [range_Records].
    destruct (guid record) as [[g|b]|] eqn:Hg; run_monad.
    + destruct (ttlcache.Has (cache s) (now w) g) eqn:Hhas.
      * assert (Hc : cached (cache s) (now w) record = true)
          by (unfold cached; by rewrite Hg).
        destruct IH as [(p & (pre & post & -> & Hpre & Hp) & ->)
                       |[(Hall & ->)|((pre & p & post & -> & Hpre & Hp) & ->)]].
        -- left. exists p. split; [|reflexivity].
           exists (record :: pre), post. by repeat split; [constructor|].
        -- right; left. by split; [constructor|].
        -- right; right. split; [|reflexivity].
           exists (record :: pre), p, post. by repeat split; [constructor|].
      * left. exists record. split; [|reflexivity].
        exists [], rest. repeat split; [constructor|].
        unfold absent. by rewrite Hg, Hhas.
    + right; right. split; [|reflexivity].
      exists [], record, rest. repeat split; [constructor|].
      unfold has_guid. by rewrite Hg.
    + right; right. split; [|reflexivity].
      exists [], record, rest. repeat split; [constructor|].
      unfold has_guid. by rewrite Hg.
Qed.

(** An update that carries a chat, and whose chat is not on the white
    list, is logged and dropped: the turn consists of that one log line, so
    nothing goes out (no reply, no call on the store), and the state after
    the turn is the state before it. *)
Theorem unknown_sender_dropped (envVars : env.Env) (w : World) (update : Update)
    (s : State) (chat : Chat) :
  FromChat update = Some chat ->
  helpers.IDContains (env.TelegramWhiteList envVars) (ID chat) = false ->
  iteration envVars w update s
  = mkRun (Returned tt) s [Log (got_update_from_unknown_user update)]
  /\ outbound_calls (calls (iteration envVars w update s)) = []
  /\ final (iteration envVars w update s) = s.
Proof.
  intros Hchat Hout. unfold iteration. rewrite Hchat, Hout. by cbn.
Qed.

Lemma unknown_sender_dropped_witness :
  iteration Sample.envVars (Sample.calm 0 [Sample.postA])
    (Sample.command_from Sample.stranger "getpost") (Sample.pending Sample.postB)
  = mkRun (Returned tt) (Sample.pending Sample.postB)
      [Log (got_update_from_unknown_user
              (Sample.command_from Sample.stranger "getpost"))]
  /\ outbound_calls
       (calls (iteration Sample.envVars (Sample.calm 0 [Sample.postA])
                 (Sample.command_from Sample.stranger "getpost")
                 (Sample.pending Sample.postB))) = []
  /\ final (iteration Sample.envVars (Sample.calm 0 [Sample.postA])
              (Sample.command_from Sample.stranger "getpost")
              (Sample.pending Sample.postB)) = Sample.pending Sample.postB.
Proof.
  apply (unknown_sender_dropped Sample.envVars (Sample.calm 0 [Sample.postA])
           (Sample.command_from Sample.stranger "getpost")
           (Sample.pending Sample.postB) Sample.stranger); reflexivity.
Defined.

(** C7: an update that carries no chat at all (an inline query, a poll...),
    which no white list admits, is not logged and dropped: the white-list
    check reads the identifier of the missing chat, and the process ends
    on the nil pointer with nothing logged. *)
Theorem chatless_update_panics (envVars : env.Env) (w : World)
    (update : Update) (s : State) :
  FromChat update = None ->
  iteration envVars w update s = mkRun (Panicked nil_dereference) s []
  /\ outcome (loop envVars [(w, update)] s) = Panicked nil_dereference.
Proof.
  intros Hchat.
  assert (Hrun : iteration envVars w update s
                 = mkRun (Panicked nil_dereference) s [])
    by (unfold iteration; by rewrite Hchat).
  split; [done|]. cbn [loop]. cbv [mbind M_bind bind]. by rewrite Hrun.
Qed.

Lemma chatless_update_panics_witness :
  iteration Sample.envVars (Sample.calm 0 [])
    {| Message_ := None; OtherChat := None |} (Sample.pending Sample.postA)
  = mkRun (Panicked nil_dereference) (Sample.pending Sample.postA) []
  /\ outcome (loop Sample.envVars
                [(Sample.calm 0 [], {| Message_ := None; OtherChat := None |})]
                (Sample.pending Sample.postA))
     = Panicked nil_dereference.
Proof.
  apply (chatless_update_panics Sample.envVars (Sample.calm 0 [])
           {| Message_ := None; OtherChat := None |}
           (Sample.pending Sample.postA)).
  reflexivity.
Defined.

Lemma iteration_allowed (envVars : env.Env) (w : World) (update : Update)
    (m : Message) (s : State) :
  allowed envVars update m ->
  iteration envVars w update s = handle w m s.
Proof.
  intros [Hm Hin]. unfold iteration, FromChat. by rewrite Hm, Hin.
Qed.

Lemma bot_Send_run (w : World) (msg : MessageConfig) (s : State) :
  bot_Send w msg s
  = match Send_err w with
    | Some err => mkRun (Panicked (log_Panic err)) s [Send msg; Log (panic_line err)]
    | None => mkRun (Returned tt) s [Send msg]
    end.
Proof. unfold bot_Send. by destruct (Send_err w); run_monad. Qed.

Lemma on_text_approve (w : World) (msg : MessageConfig) :
  on_text w (buttons.Text buttons.ApproveButton) msg = approve w msg.
Proof. reflexivity. Qed.

Lemma on_text_reject (w : World) (msg : MessageConfig) :
  on_text w (buttons.Text buttons.RejectButton) msg = reject w msg.
Proof. reflexivity. Qed.

Lemma on_text_skip (w : World) (msg : MessageConfig) :
  on_text w (buttons.Text buttons.SkipButton) msg = skip w msg.
Proof. reflexivity. Qed.

Lemma on_text_other (w : World) (text : string) (msg : MessageConfig) :
  text <> buttons.Text buttons.ApproveButton ->
  text <> buttons.Text buttons.RejectButton ->
  text <> buttons.Text buttons.SkipButton ->
  on_text w text msg = unsupported msg.
Proof.
  intros Ha Hr Hs. unfold on_text.
  by rewrite (proj2 (String.eqb_neq _ _) Ha), (proj2 (String.eqb_neq _ _) Hr),
    (proj2 (String.eqb_neq _ _) Hs).
Qed.

Lemma do_UpdateRecordPartial_run (w : World) (fields : gmap string airtable.any)
    (s : State) :
  do_UpdateRecordPartial w fields s
  = match currentPost s with
    | Some p =>
        match UpdateRecordPartial_err w, UpdateRecordPartial_Records w with
        | None, [] =>
            mkRun (Panicked records_index_out_of_range) s
              [UpdateRecordPartial (airtable.ID p) fields]
        | err, _ =>
            mkRun (Returned err) s [UpdateRecordPartial (airtable.ID p) fields]
        end
    | None => mkRun (Panicked nil_dereference) s []
    end.
Proof.
  unfold do_UpdateRecordPartial. run_monad.
  destruct (currentPost s); [|reflexivity].
  destruct (UpdateRecordPartial_err w), (UpdateRecordPartial_Records w);
    reflexivity.
Qed.

Lemma approve_run (w : World) (msg : MessageConfig) (s : State) :
  approve w msg s
  = match currentPost s, UpdateRecordPartial_err w,
          UpdateRecordPartial_Records w with
    | None, _, _ => mkRun (Panicked nil_dereference) s []
    | Some p, None, [] =>
        mkRun (Panicked records_index_out_of_range) s
          [UpdateRecordPartial (airtable.ID p) approve_fields]
    | Some p, None, _ :: _ =>
        mkRun (Returned (with_text msg "Пост принят")) s
          [UpdateRecordPartial (airtable.ID p) approve_fields]
    | Some p, Some e, _ =>
        mkRun (Returned (with_text msg (error_text e)))
          {| currentPost := None; cache := cache s |}
          [UpdateRecordPartial (airtable.ID p) approve_fields;
           Log (error_while_approving e)]
    end.
Proof.
  unfold approve. unfold mbind at 1, M_bind at 1, bind at 1.
  rewrite do_UpdateRecordPartial_run.
  destruct (currentPost s), (UpdateRecordPartial_err w),
    (UpdateRecordPartial_Records w); by run_monad.
Qed.

Lemma reject_run (w : World) (msg : MessageConfig) (s : State) :
  reject w msg s
  = match currentPost s, UpdateRecordPartial_err w,
          UpdateRecordPartial_Records w with
    | None, _, _ => mkRun (Panicked nil_dereference) s []
    | Some p, None, [] =>
        mkRun (Panicked records_index_out_of_range) s
          [UpdateRecordPartial (airtable.ID p) reject_fields]
    | Some p, None, _ :: _ =>
        mkRun (Returned (with_text msg "Пост отклонен")) s
          [UpdateRecordPartial (airtable.ID p) reject_fields]
    | Some p, Some e, _ =>
        mkRun (Returned (with_text msg (error_text e)))
          {| currentPost := None; cache := cache s |}
          [UpdateRecordPartial (airtable.ID p) reject_fields;
           Log (error_while_rejecting e)]
    end.
Proof.
  unfold reject. unfold mbind at 1, M_bind at 1, bind at 1.
  rewrite do_UpdateRecordPartial_run.
  destruct (currentPost s), (UpdateRecordPartial_err w),
    (UpdateRecordPartial_Records w); by run_monad.
Qed.

Lemma skip_run (w : World) (msg : MessageConfig) (s : State) :
  skip w msg s
  = match currentPost s with
    | None => mkRun (Panicked nil_dereference) s []
    | Some p =>
        match guid p with
        | Some (airtable.AString g) =>
            mkRun (Returned (with_text msg "Пост пропущен"))
              {| currentPost := None;
                 cache := ttlcache.Set_DefaultTTL (cache s) (now w) g true |} []
        | _ => mkRun (Panicked type_assertion) s []
        end
    end.
Proof.
  unfold skip. run_monad.
  destruct (currentPost s) as [p|]; [|reflexivity].
  cbn [outcome final calls currentPost cache app].
  destruct (guid p) as [[g|b]|]; reflexivity.
Qed.

Lemma unsupported_run (msg : MessageConfig) (s : State) :
  unsupported msg s
  = mkRun (Returned (with_text msg unsupported_text))
      {| currentPost := None; cache := cache s |} [].
Proof. reflexivity. Qed.


Lemma getpost_run (w : World) (msg : MessageConfig) (s : State) :
  getpost w msg s
  = match Do_answer w with
    | inl err =>
        mkRun (Panicked (log_Panic err)) s [GetRecords_Do; Log (panic_line err)]
    | inr records =>
        let r := range_Records w records s in
        match outcome r with
        | Panicked p => mkRun (Panicked p) (final r) (GetRecords_Do :: calls r)
        | Returned _ =>
            match currentPost (final r) with
            | None => mkRun (Panicked nil_dereference) (final r)
                        (GetRecords_Do :: calls r)
            | Some p =>
                mkRun (Returned {| ChatID := ChatID msg;
                                   MsgText := post_text p;
                                   ReplyMarkup := Some oneTimePostKB |})
                      (final r) (GetRecords_Do :: calls r)
            end
        end
    end.
Proof.
  unfold getpost. destruct (Do_answer w) as [err|records]; [by run_monad|].
  run_monad. destruct (range_Records w records s) as [[[]|p] s' cs]; cbn.
  - destruct (currentPost s'); cbn; by rewrite ?app_nil_r.
  - by rewrite ?app_nil_r.
Qed.

Lemma on_command_getpost (w : World) (msg : MessageConfig) :
  on_command w "getpost" msg = getpost w msg.
Proof. reflexivity. Qed.

Lemma handle_run (w : World) (m : Message) (s : State) :
  handle w m s
  = let msg0 := NewMessage (ID (Chat_ m)) "" in
    let r := (if IsCommand m then on_command w (Command m) msg0
              else on_text w (Text m) msg0) s in
    match outcome r with
    | Panicked p => mkRun (Panicked p) (final r) (first_line m :: calls r)
    | Returned msg =>
        match Send_err w with
        | Some err =>
            mkRun (Panicked (log_Panic err)) (final r)
              (first_line m :: calls r ++ [Send msg; Log (panic_line err)])
        | None =>
            mkRun (Returned tt) (final r) (first_line m :: calls r ++ [Send msg])
        end
    end.
Proof.
  unfold handle, first_line.
  cbv [mbind M_bind bind call]. cbn [outcome final calls app].
  destruct (IsCommand m).
  - destruct (on_command w (Command m) _ s) as [[msg|p] s' cs];
      cbn [outcome final calls app]; [|reflexivity].
    rewrite bot_Send_run. by destruct (Send_err w).
  - destruct (on_text w (Text m) _ s) as [[msg|p] s' cs];
      cbn [outcome final calls app]; [|reflexivity].
    rewrite bot_Send_run. by destruct (Send_err w).
Qed.

(** ** Decisions while no candidate is pending *)

Ltac enter_turn Hallowed Hcmd :=
  rewrite (iteration_allowed _ _ _ _ _ Hallowed), handle_run;
  unfold first_line; rewrite !Hcmd; cbv zeta.

Lemma is_button_cases (text : string) :
  is_button text = true ->
  text = buttons.Text buttons.ApproveButton
  \/ text = buttons.Text buttons.RejectButton
  \/ text = buttons.Text buttons.SkipButton.
Proof.
  unfold is_button. rewrite !orb_true_iff, !String.eqb_eq. tauto.
Qed.

Lemma is_button_false (text : string) :
  is_button text = false ->
  text <> buttons.Text buttons.ApproveButton
  /\ text <> buttons.Text buttons.RejectButton
  /\ text <> buttons.Text buttons.SkipButton.
Proof.
  unfold is_button. rewrite !orb_false_iff, !String.eqb_neq. tauto.
Qed.

(** A text that is no button, with the slot empty: the reply says the
    button is not supported, the store is not called, the state stays. *)
Lemma unrecognized_without_candidate (envVars : env.Env) (w : World)
    (update : Update) (m : Message) (s : State) :
  allowed envVars update m ->
  IsCommand m = false ->
  is_button (Text m) = false ->
  currentPost s = None ->
  Send_err w = None ->
  iteration envVars w update s
  = mkRun (Returned tt) s
      [Log (got_text (Text m));
       Send (NewMessage (ID (Chat_ m)) unsupported_text)].
Proof.
  intros Hallowed Hcmd Hbut Hcur Hsend. enter_turn Hallowed Hcmd.
  apply is_button_false in Hbut as (Ha & Hr & Hs).
  rewrite (on_text_other _ _ _ Ha Hr Hs), unsupported_run, Hsend.
  destruct s as [cp c]; cbn in *. by subst cp.
Qed.

(** C1: at the press of a button (approve, reject or skip) with the slot
    empty, the turn ends in a nil-pointer panic after the log line: no
    reply is sent (in particular not the "unsupported" one) and the store
    is not called. *)
Theorem button_without_candidate_panics (envVars : env.Env) (w : World)
    (update : Update) (m : Message) (s : State) :
  allowed envVars update m ->
  IsCommand m = false ->
  is_button (Text m) = true ->
  currentPost s = None ->
  iteration envVars w update s
  = mkRun (Panicked nil_dereference) s [Log (got_text (Text m))].
Proof.
  intros Hallowed Hcmd Hbut Hcur. enter_turn Hallowed Hcmd.
  destruct (is_button_cases _ Hbut) as [->|[->| ->]].
  - by rewrite on_text_approve, approve_run, Hcur.
  - by rewrite on_text_reject, reject_run, Hcur.
  - by rewrite on_text_skip, skip_run, Hcur.
Qed.

Lemma button_without_candidate_panics_witness :
  iteration Sample.envVars (Sample.calm 0 [])
    (Sample.text_from Sample.operator (buttons.Text buttons.SkipButton)) init
  = mkRun (Panicked nil_dereference) init
      [Log (got_text (buttons.Text buttons.SkipButton))].
Proof.
  apply (button_without_candidate_panics Sample.envVars (Sample.calm 0 [])
           (Sample.text_from Sample.operator (buttons.Text buttons.SkipButton))
           {| Chat_ := Sample.operator;
              Text := buttons.Text buttons.SkipButton;
              IsCommand := false; Command := "" |} init);
    [split; reflexivity | reflexivity..].
Defined.

(** ** Fetching *)

Lemma getpost_turn (envVars : env.Env) (w : World) (update : Update)
    (m : Message) (records : list airtable.Record_) (s : State) :
  allowed envVars update m ->
  IsCommand m = true ->
  Command m = "getpost" ->
  Do_answer w = inr records ->
  iteration envVars w update s
  = let r := range_Records w records s in
    match outcome r with
    | Panicked p =>
        mkRun (Panicked p) (final r)
          (Log (got_command "getpost") :: GetRecords_Do :: calls r)
    | Returned _ =>
        match currentPost (final r) with
        | None =>
            mkRun (Panicked nil_dereference) (final r)
              (Log (got_command "getpost") :: GetRecords_Do :: calls r)
        | Some p =>
            let msg := {| ChatID := ID (Chat_ m); MsgText := post_text p;
                          ReplyMarkup := Some oneTimePostKB |} in
            match Send_err w with
            | Some err =>
                mkRun (Panicked (log_Panic err)) (final r)
                  (Log (got_command "getpost") :: GetRecords_Do :: calls r
                     ++ [Send msg; Log (panic_line err)])
            | None =>
                mkRun (Returned tt) (final r)
                  (Log (got_command "getpost") :: GetRecords_Do :: calls r
                     ++ [Send msg])
            end
        end
    end.
Proof.
  intros Hallowed Hcmd Hname Hdo. enter_turn Hallowed Hcmd.
  rewrite Hname, on_command_getpost, getpost_run, Hdo.
  cbv zeta. destruct (range_Records w records s) as [[[]|p] s' cs];
    cbn [outcome final calls]; [|reflexivity].
  destruct (currentPost s'); cbn [outcome final calls]; [|reflexivity].
  by destruct (Send_err w).
Qed.

Lemma range_Records_all_cached (w : World) (records : list airtable.Record_)
    (s : State) :
  Forall (fun r => cached (cache s) (now w) r = true) records ->
  range_Records w records s = mkRun (Returned tt) s [].
Proof.
  induction 1 as [|r rest Hr _ IH]; cbn [range_Records]; [reflexivity|].
  unfold cached in Hr. destruct (guid r) as [[g|b]|]; [|done..].
  run_monad. rewrite Hr, IH. reflexivity.
Qed.

(** C2: a fetch whose query succeeds but lists no record outside the skip
    cache (an empty list included), with the slot empty: the turn ends in
    a nil-pointer panic, after the log line and the query; no message is
    sent. *)
Theorem getpost_nothing_eligible_panics (envVars : env.Env) (w : World)
    (update : Update) (m : Message) (records : list airtable.Record_)
    (s : State) :
  allowed envVars update m ->
  IsCommand m = true ->
  Command m = "getpost" ->
  Do_answer w = inr records ->
  Forall (fun r => cached (cache s) (now w) r = true) records ->
  currentPost s = None ->
  iteration envVars w update s
  = mkRun (Panicked nil_dereference) s
      [Log (got_command "getpost"); GetRecords_Do].
Proof.
  intros Hallowed Hcmd Hname Hdo Hall Hcur.
  rewrite (getpost_turn _ _ _ _ _ _ Hallowed Hcmd Hname Hdo). cbv zeta.
  rewrite (range_Records_all_cached w records s Hall).
  cbn [outcome final calls]. by rewrite Hcur.
Qed.

Lemma getpost_nothing_eligible_panics_witness :
  iteration Sample.envVars (Sample.calm 0 [])
    (Sample.command_from Sample.operator "getpost") init
  = mkRun (Panicked nil_dereference) init
      [Log (got_command "getpost"); GetRecords_Do].
Proof.
  apply (getpost_nothing_eligible_panics Sample.envVars (Sample.calm 0 [])
           (Sample.command_from Sample.operator "getpost")
           {| Chat_ := Sample.operator; Text := "/getpost";
              IsCommand := true; Command := "getpost" |} [] init);
    [split; reflexivity | reflexivity | reflexivity | reflexivity
    | constructor | reflexivity].
Defined.

Lemma range_Records_first_absent (w : World) (records : list airtable.Record_)
    (s : State) (q : airtable.Record_) :
  first_absent (cache s) (now w) records q ->
  range_Records w records s
  = mkRun (Returned tt) {| currentPost := Some q; cache := cache s |} [].
Proof.
  intros (pre & post & -> & Hpre & Hq).
  induction Hpre as [|r pre Hr _ IH]; cbn [range_Records app].
  - unfold absent in Hq. destruct (guid q) as [[g|b]|]; [|done..].
    run_monad. by destruct (ttlcache.Has (cache s) (now w) g).
  - unfold cached in Hr. destruct (guid r) as [[g|b]|]; [|done..].
    run_monad. rewrite Hr, IH. reflexivity.
Qed.

Lemma absent_guid (c : ttlcache.Cache) (t : Z) (p : airtable.Record_) :
  absent c t p = true ->
  exists g, guid p = Some (airtable.AString g) /\ ttlcache.Has c t g = false.
Proof.
  unfold absent. destruct (guid p) as [[g|b]|]; [|done..].
  intros H. exists g. split; [done|]. by destruct (ttlcache.Has c t g).
Qed.

(** C5: at a fetch whose query succeeds, the loop over the records assigns
    the slot in one case only, and then the assigned record is the first,
    in the order returned, whose identifier is not in the skip cache at
    that instant; in the two other cases (every record is in the cache, or
    the loop stops on an identifier that is no string) the slot keeps what
    it held. *)
Theorem getpost_selects_first_absent (envVars : env.Env) (w : World)
    (update : Update) (m : Message) (records : list airtable.Record_)
    (s : State) :
  allowed envVars update m ->
  IsCommand m = true ->
  Command m = "getpost" ->
  Do_answer w = inr records ->
  let r := iteration envVars w update s in
  (exists p g,
      currentPost (final r) = Some p /\
      guid p = Some (airtable.AString g) /\
      ttlcache.Has (cache s) (now w) g = false /\
      first_absent (cache s) (now w) records p)
  \/ (Forall (fun r => cached (cache s) (now w) r = true) records /\
      currentPost (final r) = currentPost s)
  \/ (stops_on_bad_guid (cache s) (now w) records /\
      outcome r = Panicked type_assertion /\
      currentPost (final r) = currentPost s).
Proof.
  intros Hallowed Hcmd Hname Hdo r. subst r.
  rewrite (getpost_turn _ _ _ _ _ _ Hallowed Hcmd Hname Hdo). cbv zeta.
  destruct (range_Records_cases w records s)
    as [(p & Hfirst & ->)|[(Hall & ->)|(Hbad & ->)]];
    cbn [outcome final calls currentPost].
  - left. destruct Hfirst as (pre & post & Heq & Hpre & Hp).
    destruct (absent_guid _ _ _ Hp) as (g & Hg & Hhas).
    exists p, g. split; [destruct (Send_err w); reflexivity|].
    split; [done|]. split; [done|]. by exists pre, post.
  - right; left. split; [done|].
    destruct (currentPost s) eqn:Hcp; [destruct (Send_err w)|];
      cbn [final]; congruence.
  - right; right. by repeat split.
Qed.

Lemma getpost_selects_first_absent_witness :
  let r := iteration Sample.envVars (Sample.calm 5 [Sample.postA; Sample.postB])
             (Sample.command_from Sample.operator "getpost")
             (Sample.skipped 0 "guid-a") in
  (exists p g,
      currentPost (final r) = Some p /\
      guid p = Some (airtable.AString g) /\
      ttlcache.Has (cache (Sample.skipped 0 "guid-a")) 5 g = false /\
      first_absent (cache (Sample.skipped 0 "guid-a")) 5
        [Sample.postA; Sample.postB] p)
  \/ (Forall (fun r => cached (cache (Sample.skipped 0 "guid-a")) 5 r = true)
        [Sample.postA; Sample.postB] /\
      currentPost (final r) = currentPost (Sample.skipped 0 "guid-a"))
  \/ (stops_on_bad_guid (cache (Sample.skipped 0 "guid-a")) 5
        [Sample.postA; Sample.postB] /\
      outcome r = Panicked type_assertion /\
      currentPost (final r) = currentPost (Sample.skipped 0 "guid-a")).
Proof.
  apply (getpost_selects_first_absent Sample.envVars
           (Sample.calm 5 [Sample.postA; Sample.postB])
           (Sample.command_from Sample.operator "getpost")
           Sample.getpost_message [Sample.postA; Sample.postB]
           (Sample.skipped 0 "guid-a"));
    [split; reflexivity | reflexivity..].
Defined.

(** The same fetch with a record still in the slot: that record is sent
    again and stays in the slot. *)
Lemma getpost_nothing_eligible_resends (envVars : env.Env) (w : World)
    (update : Update) (m : Message) (records : list airtable.Record_)
    (s : State) (p : airtable.Record_) :
  allowed envVars update m ->
  IsCommand m = true ->
  Command m = "getpost" ->
  Do_answer w = inr records ->
  Forall (fun r => cached (cache s) (now w) r = true) records ->
  currentPost s = Some p ->
  Send_err w = None ->
  iteration envVars w update s
  = mkRun (Returned tt) s
      [Log (got_command "getpost"); GetRecords_Do;
       Send {| ChatID := ID (Chat_ m); MsgText := post_text p;
               ReplyMarkup := Some oneTimePostKB |}].
Proof.
  intros Hallowed Hcmd Hname Hdo Hall Hcur Hsend.
  rewrite (getpost_turn _ _ _ _ _ _ Hallowed Hcmd Hname Hdo). cbv zeta.
  rewrite (range_Records_all_cached w records s Hall).
  cbn [outcome final calls app]. by rewrite Hcur, Hsend.
Qed.

(** The sample fetch indeed takes the second record, the first being skipped. *)
Example getpost_sample_takes_second :
  currentPost
    (final (iteration Sample.envVars (Sample.calm 5 [Sample.postA; Sample.postB])
              (Sample.command_from Sample.operator "getpost")
              (Sample.skipped 0 "guid-a")))
  = Some Sample.postB.
Proof. vm_compute. reflexivity. Qed.

(** C9, as the code has it: a fetch issued while a candidate is pending,
    whose query lists a record outside the skip cache with, before it, only
    records whose identifiers are strings held by the cache, puts that
    record in the slot; what is logged, asked and sent is what the same
    fetch does with an empty slot, so nothing warns the operator. *)
Theorem refetch_overwrites_silently (envVars : env.Env) (w : World)
    (update : Update) (m : Message) (records : list airtable.Record_)
    (s : State) (p q : airtable.Record_) :
  allowed envVars update m ->
  IsCommand m = true ->
  Command m = "getpost" ->
  Do_answer w = inr records ->
  currentPost s = Some p ->
  first_absent (cache s) (now w) records q ->
  let r := iteration envVars w update s in
  currentPost (final r) = Some q /\
  outbound_calls (calls r)
  = [GetRecords_Do;
     Send {| ChatID := ID (Chat_ m); MsgText := post_text q;
             ReplyMarkup := Some oneTimePostKB |}] /\
  r = iteration envVars w update {| currentPost := None; cache := cache s |}.
Proof.
  intros Hallowed Hcmd Hname Hdo Hcur Hq r. subst r.
  rewrite !(getpost_turn _ _ _ _ _ _ Hallowed Hcmd Hname Hdo). cbv zeta.
  rewrite (range_Records_first_absent w records s q Hq).
  rewrite (range_Records_first_absent w records
             {| currentPost := None; cache := cache s |} q Hq).
  cbn [outcome final calls currentPost cache app].
  destruct (Send_err w); split_and!; reflexivity.
Qed.

Lemma refetch_overwrites_silently_witness :
  let r := iteration Sample.envVars (Sample.calm 5 [Sample.postB; Sample.postA])
             (Sample.command_from Sample.operator "getpost")
             (Sample.pending Sample.postA) in
  currentPost (final r) = Some Sample.postB /\
  outbound_calls (calls r)
  = [GetRecords_Do;
     Send {| ChatID := 12; MsgText := post_text Sample.postB;
             ReplyMarkup := Some oneTimePostKB |}] /\
  r = iteration Sample.envVars (Sample.calm 5 [Sample.postB; Sample.postA])
        (Sample.command_from Sample.operator "getpost")
        {| currentPost := None; cache := cache (Sample.pending Sample.postA) |}.
Proof.
  apply (refetch_overwrites_silently Sample.envVars
           (Sample.calm 5 [Sample.postB; Sample.postA])
           (Sample.command_from Sample.operator "getpost")
           Sample.getpost_message [Sample.postB; Sample.postA]
           (Sample.pending Sample.postA) Sample.postA Sample.postB);
    [split; reflexivity | reflexivity | reflexivity | reflexivity | reflexivity|].
  exists [], [Sample.postA]. split_and!; [reflexivity | constructor | reflexivity].
Defined.

(** C9 as stated fails: with the first record pending, a second fetch that
    lists the same records, and one that lists none, both leave that
    record in the slot. *)
Lemma refetch_can_keep_first_candidate :
  let first := iteration Sample.envVars (Sample.calm 0 [Sample.postA; Sample.postB])
                 (Sample.command_from Sample.operator "getpost") init in
  let same := iteration Sample.envVars (Sample.calm 1 [Sample.postA; Sample.postB])
                (Sample.command_from Sample.operator "getpost") (final first) in
  let none := iteration Sample.envVars (Sample.calm 1 [])
                (Sample.command_from Sample.operator "getpost") (final first) in
  currentPost (final first) = Some Sample.postA /\
  currentPost (final same) = Some Sample.postA /\
  currentPost (final none) = Some Sample.postA /\
  outcome same = Returned tt /\ outcome none = Returned tt.
Proof. vm_compute. repeat split. Qed.

(** ** Decisions on a pending candidate *)

Lemma on_text_decision (w : World) (d : Decision) (msg : MessageConfig) (s : State) :
  on_text w (buttons.Text (button_of d)) msg s
  = match currentPost s, UpdateRecordPartial_err w,
          UpdateRecordPartial_Records w with
    | None, _, _ => mkRun (Panicked nil_dereference) s []
    | Some p, None, [] =>
        mkRun (Panicked records_index_out_of_range) s
          [UpdateRecordPartial (airtable.ID p) (fields_of d)]
    | Some p, None, _ :: _ =>
        mkRun (Returned (with_text msg (confirmation_of d))) s
          [UpdateRecordPartial (airtable.ID p) (fields_of d)]
    | Some p, Some e, _ =>
        mkRun (Returned (with_text msg (error_text e)))
          {| currentPost := None; cache := cache s |}
          [UpdateRecordPartial (airtable.ID p) (fields_of d);
           Log (error_line_of d e)]
    end.
Proof.
  destruct d; cbn [button_of fields_of confirmation_of error_line_of].
  - by rewrite on_text_approve, approve_run.
  - by rewrite on_text_reject, reject_run.
Qed.

Lemma patch_changed (changed stored : gmap string airtable.any) (k : string)
    (v : airtable.any) :
  changed !! k = Some v -> airtable.patch changed stored !! k = Some v.
Proof. intros H. unfold airtable.patch. by apply lookup_union_Some_l. Qed.

Lemma patch_other (changed stored : gmap string airtable.any) (k : string) :
  changed !! k = None -> airtable.patch changed stored !! k = stored !! k.
Proof. intros H. unfold airtable.patch. by apply lookup_union_r. Qed.

(** C6: an approve (reject) with a candidate pending sends one request to
    the store, a partial update of that candidate's record whose fields are
    exactly IsApproved, IsRejected and ToInvistigate with the values
    (true, false, false) (resp. (false, true, false)); applied by the store
    it gives the record that triple and leaves its other fields alone. *)
Theorem decision_partial_update (envVars : env.Env) (w : World)
    (update : Update) (m : Message) (s : State) (p : airtable.Record_)
    (d : Decision) :
  allowed envVars update m ->
  IsCommand m = false ->
  Text m = buttons.Text (button_of d) ->
  currentPost s = Some p ->
  store_calls (calls (iteration envVars w update s))
  = [UpdateRecordPartial (airtable.ID p) (fields_of d)] /\
  dom (fields_of d)
  = ({["IsApproved"]} ∪ {["IsRejected"]} ∪ {["ToInvistigate"]} : gset string) /\
  triple (fields_of d) = triple_of d /\
  forall stored : gmap string airtable.any,
    triple (airtable.patch (fields_of d) stored) = triple_of d /\
    forall k, k ∉ dom (fields_of d) ->
      airtable.patch (fields_of d) stored !! k = stored !! k.
Proof.
  intros Hallowed Hcmd Htext Hcur. split_and!.
  - enter_turn Hallowed Hcmd. rewrite Htext, on_text_decision, Hcur.
    destruct (UpdateRecordPartial_err w), (UpdateRecordPartial_Records w),
      (Send_err w); reflexivity.
  - destruct d; cbn [fields_of]; unfold approve_fields, reject_fields;
      rewrite !dom_insert_L, dom_singleton_L; set_solver.
  - by destruct d.
  - intros stored. split.
    + unfold triple.
      destruct d; cbn [fields_of triple_of];
        repeat match goal with
          | |- context [airtable.patch ?c stored !! ?k] =>
              let v := eval vm_compute in (c !! k) in
              match v with
              | Some ?x =>
                  rewrite (patch_changed c stored k x) by (vm_compute; reflexivity)
              end
          end; reflexivity.
    + intros k Hk. apply patch_other. by apply not_elem_of_dom.
Qed.

Lemma decision_partial_update_witness :
  store_calls
    (calls (iteration Sample.envVars (Sample.calm 0 [])
              (Sample.text_from Sample.operator
                 (buttons.Text buttons.RejectButton))
              (Sample.pending Sample.postA)))
  = [UpdateRecordPartial "recA" (fields_of Reject)] /\
  dom (fields_of Reject)
  = ({["IsApproved"]} ∪ {["IsRejected"]} ∪ {["ToInvistigate"]} : gset string) /\
  triple (fields_of Reject) = triple_of Reject /\
  forall stored : gmap string airtable.any,
    triple (airtable.patch (fields_of Reject) stored) = triple_of Reject /\
    forall k, k ∉ dom (fields_of Reject) ->
      airtable.patch (fields_of Reject) stored !! k = stored !! k.
Proof.
  apply (decision_partial_update Sample.envVars (Sample.calm 0 [])
           (Sample.text_from Sample.operator (buttons.Text buttons.RejectButton))
           (Sample.button_message buttons.RejectButton)
           (Sample.pending Sample.postA) Sample.postA Reject);
    [split; reflexivity | reflexivity..].
Defined.

(** An approve or reject that the store accepts, answering with the
    updated record, leaves the candidate in the slot. *)
Lemma decision_success_keeps_slot (envVars : env.Env) (w : World)
    (update : Update) (m : Message) (s : State) (p : airtable.Record_)
    (d : Decision) :
  allowed envVars update m ->
  IsCommand m = false ->
  Text m = buttons.Text (button_of d) ->
  currentPost s = Some p ->
  UpdateRecordPartial_err w = None ->
  UpdateRecordPartial_Records w <> [] ->
  final (iteration envVars w update s) = s.
Proof.
  intros Hallowed Hcmd Htext Hcur Hok Hrec. enter_turn Hallowed Hcmd.
  rewrite Htext, on_text_decision, Hcur, Hok.
  destruct (UpdateRecordPartial_Records w); [done|].
  destruct (Send_err w); reflexivity.
Qed.

(** The paths that do empty the slot: with a candidate pending, a skip, a
    text that is no button, and an approve or reject that the store refuses
    all leave the slot empty, and the turn completes when the reply can be
    sent. *)
Theorem decision_clears_slot (envVars : env.Env) (w : World)
    (update : Update) (m : Message) (s : State) (p : airtable.Record_) :
  allowed envVars update m ->
  IsCommand m = false ->
  currentPost s = Some p ->
  (forall d, Text m = buttons.Text (button_of d) ->
             UpdateRecordPartial_err w <> None) ->
  (Text m = buttons.Text buttons.SkipButton -> has_guid p = true) ->
  currentPost (final (iteration envVars w update s)) = None /\
  (Send_err w = None -> outcome (iteration envVars w update s) = Returned tt).
Proof.
  intros Hallowed Hcmd Hcur Hfail Hguid. enter_turn Hallowed Hcmd.
  destruct (is_button (Text m)) eqn:Hbut.
  - destruct (is_button_cases _ Hbut) as [Ha|[Hr|Hs]].
    + pose proof (Hfail Approve Ha) as Herr. rewrite Ha.
      rewrite (on_text_decision w Approve), Hcur.
      destruct (UpdateRecordPartial_err w); [|done].
      split; [|intros ->]; by destruct (Send_err w).
    + pose proof (Hfail Reject Hr) as Herr. rewrite Hr.
      rewrite (on_text_decision w Reject), Hcur.
      destruct (UpdateRecordPartial_err w); [|done].
      split; [|intros ->]; by destruct (Send_err w).
    + specialize (Hguid Hs). rewrite Hs, on_text_skip, skip_run, Hcur.
      unfold has_guid in Hguid. destruct (guid p) as [[g|b]|]; [|done..].
      split; [|intros ->]; by destruct (Send_err w).
  - apply is_button_false in Hbut as (Ha & Hr & Hs).
    rewrite (on_text_other _ _ _ Ha Hr Hs), unsupported_run.
    split; [|intros ->]; by destruct (Send_err w).
Qed.

Lemma decision_clears_slot_witness :
  currentPost
    (final (iteration Sample.envVars (Sample.store_down 0 "503 Service Unavailable")
              (Sample.text_from Sample.operator
                 (buttons.Text buttons.ApproveButton))
              (Sample.pending Sample.postA))) = None /\
  (Send_err (Sample.store_down 0 "503 Service Unavailable") = None ->
   outcome (iteration Sample.envVars (Sample.store_down 0 "503 Service Unavailable")
              (Sample.text_from Sample.operator
                 (buttons.Text buttons.ApproveButton))
              (Sample.pending Sample.postA)) = Returned tt).
Proof.
  apply (decision_clears_slot Sample.envVars
           (Sample.store_down 0 "503 Service Unavailable")
           (Sample.text_from Sample.operator (buttons.Text buttons.ApproveButton))
           (Sample.button_message buttons.ApproveButton)
           (Sample.pending Sample.postA) Sample.postA);
    [split; reflexivity | reflexivity | reflexivity | discriminate
    | reflexivity].
Defined.

(** C3: the one path that misses the assignment of nil, an approve that
    the store accepts, completes with the candidate still in the slot. *)
Lemma approve_success_keeps_candidate :
  let r := iteration Sample.envVars (Sample.calm 0 [])
             (Sample.text_from Sample.operator
                (buttons.Text buttons.ApproveButton))
             (Sample.pending Sample.postA) in
  outcome r = Returned tt /\
  currentPost (final r) = Some Sample.postA /\
  currentPost (final r) <> None.
Proof. vm_compute. split_and!; [reflexivity | reflexivity | discriminate]. Qed.

(** ** Failures of the store *)

(** C4, as the code has it: when the store refuses the update of an
    approve or reject, the error is logged, sent to the operator as the
    reply, the slot is emptied and the loop goes on; when the store refuses
    the query of a fetch, the error is logged and the process stops in
    [log.Panic], with no reply and the slot as it was. *)
Theorem store_failure_handling (envVars : env.Env) (w : World)
    (update : Update) (m : Message) (s : State) (err : string) :
  allowed envVars update m ->
  (forall d p,
      IsCommand m = false ->
      Text m = buttons.Text (button_of d) ->
      currentPost s = Some p ->
      UpdateRecordPartial_err w = Some err ->
      Send_err w = None ->
      iteration envVars w update s
      = mkRun (Returned tt) {| currentPost := None; cache := cache s |}
          [Log (got_text (Text m));
           UpdateRecordPartial (airtable.ID p) (fields_of d);
           Log (error_line_of d err);
           Send (NewMessage (ID (Chat_ m)) (error_text err))])
  /\ (IsCommand m = true ->
      Command m = "getpost" ->
      Do_answer w = inl err ->
      iteration envVars w update s
      = mkRun (Panicked (log_Panic err)) s
          [Log (got_command "getpost"); GetRecords_Do; Log (panic_line err)]).
Proof.
  intros Hallowed. split.
  - intros d p Hcmd Htext Hcur Herr Hsend. enter_turn Hallowed Hcmd.
    by rewrite Htext, on_text_decision, Hcur, Herr, Hsend.
  - intros Hcmd Hname Hdo. enter_turn Hallowed Hcmd.
    by rewrite Hname, on_command_getpost, getpost_run, Hdo.
Qed.

Lemma store_failure_handling_witness :
  iteration Sample.envVars (Sample.store_down 0 "503 Service Unavailable")
    (Sample.text_from Sample.operator (buttons.Text buttons.RejectButton))
    (Sample.pending Sample.postA)
  = mkRun (Returned tt) {| currentPost := None; cache := cache init |}
      [Log (got_text (buttons.Text buttons.RejectButton));
       UpdateRecordPartial "recA" reject_fields;
       Log (error_while_rejecting "503 Service Unavailable");
       Send (NewMessage 12 (error_text "503 Service Unavailable"))]
  /\ iteration Sample.envVars (Sample.store_down 0 "503 Service Unavailable")
       (Sample.command_from Sample.operator "getpost")
       (Sample.pending Sample.postA)
     = mkRun (Panicked (log_Panic "503 Service Unavailable"))
         (Sample.pending Sample.postA)
         [Log (got_command "getpost"); GetRecords_Do;
          Log (panic_line "503 Service Unavailable")].
Proof.
  split.
  - apply (proj1 (store_failure_handling Sample.envVars
                    (Sample.store_down 0 "503 Service Unavailable")
                    (Sample.text_from Sample.operator
                       (buttons.Text buttons.RejectButton))
                    (Sample.button_message buttons.RejectButton)
                    (Sample.pending Sample.postA) "503 Service Unavailable"
                    (conj eq_refl eq_refl)) Reject Sample.postA);
      reflexivity.
  - apply (proj2 (store_failure_handling Sample.envVars
                    (Sample.store_down 0 "503 Service Unavailable")
                    (Sample.command_from Sample.operator "getpost")
                    Sample.getpost_message
                    (Sample.pending Sample.postA) "503 Service Unavailable"
                    (conj eq_refl eq_refl)));
      reflexivity.
Defined.

(** C4 as stated fails: a fetch whose query the store refuses ends the
    process; nothing is sent and the pending candidate is still in the
    slot. *)
Lemma query_failure_aborts :
  let r := iteration Sample.envVars (Sample.store_down 0 "503 Service Unavailable")
             (Sample.command_from Sample.operator "getpost")
             (Sample.pending Sample.postA) in
  outcome r = Panicked (log_Panic "503 Service Unavailable") /\
  outbound_calls (calls r) = [GetRecords_Do] /\
  currentPost (final r) = Some Sample.postA.
Proof. vm_compute. split_and!; reflexivity. Qed.

(** ** What a turn can do to the state *)

Lemma iteration_final_cases (envVars : env.Env) (w : World) (update : Update)
    (s : State) :
  let s' := final (iteration envVars w update s) in
  s' = s
  \/ s' = {| currentPost := None; cache := cache s |}
  \/ (exists q, absent (cache s) (now w) q = true /\
                s' = {| currentPost := Some q; cache := cache s |})
  \/ (exists p g, currentPost s = Some p /\ guid p = Some (airtable.AString g) /\
                  s' = {| currentPost := None;
                          cache := ttlcache.Set_DefaultTTL (cache s) (now w) g true |}).
Proof.
  cbv zeta. unfold iteration.
  destruct (FromChat update) as [chat|]; [|by left].
  destruct (helpers.IDContains _ _); cbn [negb]; [|by left].
  destruct (Message_ update) as [m|]; [|by left].
  rewrite handle_run. cbv zeta. destruct (IsCommand m).
  - unfold on_command.
    repeat match goal with
           | |- context [String.eqb ?a ?b] => destruct (String.eqb a b)
           end;
      try (left; destruct (Send_err w); reflexivity).
    rewrite getpost_run. destruct (Do_answer w) as [err|records]; [by left|].
    cbv zeta.
    destruct (range_Records_cases w records s)
      as [(q & (pre & post & _ & _ & Hq) & ->)|[(_ & ->)|(_ & ->)]];
      cbn [outcome final calls currentPost].
    + right; right; left. exists q. split; [done|].
      destruct (Send_err w); reflexivity.
    + left. destruct (currentPost s); [destruct (Send_err w)|]; reflexivity.
    + by left.
  - unfold on_text.
    repeat match goal with
           | |- context [String.eqb ?a ?b] => destruct (String.eqb a b)
           end.
    + rewrite approve_run.
      destruct (currentPost s), (UpdateRecordPartial_err w),
          (UpdateRecordPartial_Records w);
        try (by left); [right; left|right; left|left];
        destruct (Send_err w); reflexivity.
    + rewrite reject_run.
      destruct (currentPost s), (UpdateRecordPartial_err w),
          (UpdateRecordPartial_Records w);
        try (by left); [right; left|right; left|left];
        destruct (Send_err w); reflexivity.
    + rewrite skip_run. destruct (currentPost s) as [p|] eqn:Hcur; [|by left].
      destruct (guid p) as [[g|b]|] eqn:Hg; try (by left).
      right; right; right. exists p, g. split_and!; [done..|].
      destruct (Send_err w); reflexivity.
    + rewrite unsupported_run. right; left. destruct (Send_err w); reflexivity.
Qed.

(** ** Runs of the loop *)

Lemma loop_cons (envVars : env.Env) (w : World) (update : Update)
    (rest : list (World * Update)) (s : State) :
  final (loop envVars ((w, update) :: rest) s)
  = match outcome (iteration envVars w update s) with
    | Returned _ => final (loop envVars rest (final (iteration envVars w update s)))
    | Panicked _ => final (iteration envVars w update s)
    end.
Proof.
  cbn [loop]. cbv [mbind M_bind bind].
  by destruct (outcome (iteration envVars w update s)).
Qed.

Lemma loop_preserves (envVars : env.Env) (P : State -> Prop) (Q : World -> Prop) :
  (forall w update s, Q w -> P s -> P (final (iteration envVars w update s))) ->
  forall updates s,
    Forall (fun ev => Q (fst ev)) updates -> P s ->
    P (final (loop envVars updates s)).
Proof.
  intros Hstep updates. induction updates as [|[w update] rest IH];
    intros s Hall Hs; [done|].
  apply Forall_cons in Hall as [Hw Hrest]. rewrite loop_cons.
  pose proof (Hstep w update s Hw Hs) as Hs'.
  destruct (outcome (iteration envVars w update s)); [by apply IH | done].
Qed.

Lemma iteration_well_formed (envVars : env.Env) (w : World) (update : Update)
    (s : State) :
  well_formed s -> well_formed (final (iteration envVars w update s)).
Proof.
  intros [Httl Hslot].
  destruct (iteration_final_cases envVars w update s)
    as [->|[->|[(q & Hq & ->)|(p & g & _ & _ & ->)]]];
    split; cbn [currentPost cache ttlcache.ttl ttlcache.Set_DefaultTTL];
    try done.
  intros p [= <-]. unfold has_guid. apply absent_guid in Hq as (g & -> & _).
  reflexivity.
Qed.

Lemma reachable_well_formed (envVars : env.Env) (s : State) :
  reachable envVars s -> well_formed s.
Proof.
  intros [updates ->].
  apply (loop_preserves envVars well_formed (fun _ => True)).
  - intros w update s _. apply iteration_well_formed.
  - by apply Forall_forall.
  - split; [reflexivity | intros p [=]].
Qed.

Lemma Has_excluded (g : string) (t0 t : Z) (s : State) :
  excluded g t0 s -> t <= t0 + day -> ttlcache.Has (cache s) t g = true.
Proof.
  intros (_ & Hitem & _) Ht. unfold ttlcache.Has. rewrite Hitem.
  cbn [ttlcache.expiresAt]. by apply Z.leb_le.
Qed.

Lemma Has_expired (g : string) (t0 t : Z) (s : State) :
  excluded g t0 s -> t0 + day < t -> ttlcache.Has (cache s) t g = false.
Proof.
  intros (_ & Hitem & _) Ht. unfold ttlcache.Has. rewrite Hitem.
  cbn [ttlcache.expiresAt]. apply Z.leb_gt. lia.
Qed.

Lemma iteration_excluded (envVars : env.Env) (g : string) (t0 : Z) (w : World)
    (update : Update) (s : State) :
  t0 <= now w < t0 + day ->
  excluded g t0 s -> excluded g t0 (final (iteration envVars w update s)).
Proof.
  intros Hw Hex. pose proof Hex as (Httl & Hitem & Hslot).
  destruct (iteration_final_cases envVars w update s)
    as [->|[->|[(q & Hq & ->)|(p & g' & Hcur & Hg' & ->)]]]; [done|..].
  - by split_and!.
  - split_and!; [done..|]. cbn [currentPost]. intros q' [= <-] Hgq.
    apply absent_guid in Hq as (g'' & Hg'' & Hhas).
    rewrite Hg'' in Hgq. injection Hgq as ->.
    rewrite (Has_excluded g t0 (now w) s Hex) in Hhas by lia. discriminate.
  - split_and!; cbn [currentPost cache ttlcache.ttl ttlcache.items
                     ttlcache.Set_DefaultTTL]; [done| |done].
    rewrite lookup_insert_ne; [done|].
    intros ->. by apply (Hslot p Hcur).
Qed.

Lemma loop_excluded (envVars : env.Env) (g : string) (t0 : Z)
    (updates : list (World * Update)) (s : State) :
  within_day t0 updates ->
  excluded g t0 s -> excluded g t0 (final (loop envVars updates s)).
Proof.
  intros Hall Hs.
  apply (loop_preserves envVars (excluded g t0)
           (fun w => t0 <= now w < t0 + day)); [|done..].
  intros w update s'. apply iteration_excluded.
Qed.

(** ** Skipping *)

Lemma getpost_takes_first_absent (envVars : env.Env) (w : World)
    (update : Update) (m : Message) (records : list airtable.Record_)
    (s : State) (q : airtable.Record_) :
  allowed envVars update m ->
  IsCommand m = true ->
  Command m = "getpost" ->
  Do_answer w = inr records ->
  first_absent (cache s) (now w) records q ->
  currentPost (final (iteration envVars w update s)) = Some q.
Proof.
  intros Hallowed Hcmd Hname Hdo Hq.
  rewrite (getpost_turn _ _ _ _ _ _ Hallowed Hcmd Hname Hdo). cbv zeta.
  rewrite (range_Records_first_absent w records s q Hq).
  cbn [outcome final calls currentPost]. destruct (Send_err w); reflexivity.
Qed.

Lemma skip_turn (envVars : env.Env) (w : World) (update : Update)
    (m : Message) (s : State) (p : airtable.Record_) (g : string) :
  allowed envVars update m ->
  IsCommand m = false ->
  Text m = buttons.Text buttons.SkipButton ->
  currentPost s = Some p ->
  guid p = Some (airtable.AString g) ->
  final (iteration envVars w update s)
  = {| currentPost := None;
       cache := ttlcache.Set_DefaultTTL (cache s) (now w) g true |}
  /\ store_calls (calls (iteration envVars w update s)) = [].
Proof.
  intros Hallowed Hcmd Htext Hcur Hg. enter_turn Hallowed Hcmd.
  rewrite Htext, on_text_skip, skip_run, Hcur, Hg.
  destruct (Send_err w); split; reflexivity.
Qed.

(** C8: a skip with a candidate pending puts the candidate's identifier in
    the skip cache, to expire 24 hours later, empties the slot and does not
    call the store.  Whatever turns follow during those 24 hours, the slot
    never holds a record with that identifier and the cache holds the
    identifier at every instant of the period; past the expiry the cache no
    longer holds it, and a fetch that meets a record with that identifier
    before any other record outside the cache takes it. *)
Theorem skip_excludes_for_a_day (envVars : env.Env) (w : World)
    (update : Update) (m : Message) (s : State) (p : airtable.Record_) :
  reachable envVars s ->
  allowed envVars update m ->
  IsCommand m = false ->
  Text m = buttons.Text buttons.SkipButton ->
  currentPost s = Some p ->
  let r := iteration envVars w update s in
  exists g,
    guid p = Some (airtable.AString g) /\
    ttlcache.items (cache (final r)) !! g
    = Some {| ttlcache.value := true;
              ttlcache.expiresAt := now w + 24 * ttlcache.Hour |} /\
    currentPost (final r) = None /\
    store_calls (calls r) = [] /\
    forall later, within_day (now w) later ->
      let s2 := final (loop envVars later (final r)) in
      (forall q, currentPost s2 = Some q -> guid q <> Some (airtable.AString g)) /\
      (forall t, now w <= t < now w + 24 * ttlcache.Hour ->
                 ttlcache.Has (cache s2) t g = true) /\
      (forall t, now w + 24 * ttlcache.Hour < t ->
                 ttlcache.Has (cache s2) t g = false) /\
      (forall w' update' m' pre q post,
          allowed envVars update' m' ->
          IsCommand m' = true ->
          Command m' = "getpost" ->
          now w + 24 * ttlcache.Hour < now w' ->
          Do_answer w' = inr (pre ++ q :: post)%list ->
          Forall (fun r => cached (cache s2) (now w') r = true) pre ->
          guid q = Some (airtable.AString g) ->
          currentPost (final (iteration envVars w' update' s2)) = Some q).
Proof.
  intros Hreach Hallowed Hcmd Htext Hcur r. subst r.
  destruct (reachable_well_formed _ _ Hreach) as [Httl Hslot].
  specialize (Hslot p Hcur). unfold has_guid in Hslot.
  destruct (guid p) as [[g|b]|] eqn:Hg; [|done..]. clear Hslot.
  destruct (skip_turn envVars w update m s p g Hallowed Hcmd Htext Hcur Hg)
    as [Hfinal Hcalls].
  fold day. rewrite Hfinal, Hcalls.
  assert (Hex : excluded g (now w)
                  {| currentPost := None;
                     cache := ttlcache.Set_DefaultTTL (cache s) (now w) g true |}).
  { split_and!; cbn [currentPost cache ttlcache.ttl ttlcache.items
                      ttlcache.Set_DefaultTTL]; [done| |done].
    by rewrite lookup_insert_eq, Httl. }
  exists g. split_and!; [done|apply Hex|done|done|].
  intros later Hlater s2. subst s2.
  pose proof (loop_excluded envVars g (now w) later _ Hlater Hex) as Hex2.
  split_and!.
  - apply Hex2.
  - intros t Ht. apply (Has_excluded g (now w)); [done|lia].
  - intros t Ht. by apply (Has_expired g (now w)).
  - intros w' update' m' pre q post Hallowed' Hcmd' Hname' Hlate Hdo Hpre Hgq.
    apply (getpost_takes_first_absent _ _ _ m' (pre ++ q :: post)%list);
      [done..|].
    exists pre, post. split_and!; [done..|].
    unfold absent. rewrite Hgq.
    by rewrite (Has_expired g (now w) (now w') _ Hex2 Hlate).
Qed.

Lemma skip_excludes_for_a_day_witness :
  let r := iteration Sample.envVars (fst Sample.skip_at_100)
             (snd Sample.skip_at_100) (Sample.pending Sample.postA) in
  exists g,
    guid Sample.postA = Some (airtable.AString g) /\
    ttlcache.items (cache (final r)) !! g
    = Some {| ttlcache.value := true;
              ttlcache.expiresAt := 100 + 24 * ttlcache.Hour |} /\
    currentPost (final r) = None /\
    store_calls (calls r) = [] /\
    forall later, within_day 100 later ->
      let s2 := final (loop Sample.envVars later (final r)) in
      (forall q, currentPost s2 = Some q -> guid q <> Some (airtable.AString g)) /\
      (forall t, 100 <= t < 100 + 24 * ttlcache.Hour ->
                 ttlcache.Has (cache s2) t g = true) /\
      (forall t, 100 + 24 * ttlcache.Hour < t ->
                 ttlcache.Has (cache s2) t g = false) /\
      (forall w' update' m' pre q post,
          allowed Sample.envVars update' m' ->
          IsCommand m' = true ->
          Command m' = "getpost" ->
          100 + 24 * ttlcache.Hour < now w' ->
          Do_answer w' = inr (pre ++ q :: post)%list ->
          Forall (fun r => cached (cache s2) (now w') r = true) pre ->
          guid q = Some (airtable.AString g) ->
          currentPost (final (iteration Sample.envVars w' update' s2)) = Some q).
Proof.
  apply (skip_excludes_for_a_day Sample.envVars (fst Sample.skip_at_100)
           (snd Sample.skip_at_100)
           (Sample.button_message buttons.SkipButton)
           (Sample.pending Sample.postA) Sample.postA);
    [|split; reflexivity | reflexivity | reflexivity | reflexivity].
  exists [Sample.first_fetch]. vm_compute. reflexivity.
Defined.

(** The same on a run: fetched, skipped at instant 100, the first record
    is passed over one hour later and taken again after 25 hours. *)
Example skipped_post_comes_back :
  let run t := final (loop Sample.envVars
                        [Sample.first_fetch; Sample.skip_at_100; Sample.fetch_at t]
                        init) in
  currentPost (run (100 + ttlcache.Hour)) = Some Sample.postB /\
  currentPost (run (100 + 25 * ttlcache.Hour)) = Some Sample.postA.
Proof. vm_compute. split; reflexivity. Qed.

(** * Further properties of the update loop *)

(** ** The shape of a turn *)

Lemma range_Records_silent (w : World) (records : list airtable.Record_)
    (s : State) :
  calls (range_Records w records s) = [].
Proof.
  destruct (range_Records_cases w records s)
    as [(p & _ & ->)|[(_ & ->)|(_ & ->)]]; reflexivity.
Qed.

Lemma on_command_shape (w : World) (command : string) (msg0 : MessageConfig)
    (s : State) :
  let r := on_command w command msg0 s in
  sends (calls r) = [] /\
  (length (store_calls (calls r)) <= 1)%nat /\
  forall msg, outcome r = Returned msg -> ChatID msg = ChatID msg0.
Proof.
  cbv zeta. unfold on_command.
  repeat match goal with
         | |- context [String.eqb ?a ?b] => destruct (String.eqb a b)
         end;
    try (split_and!; [reflexivity | cbn; lia | by intros msg [= <-]]).
  rewrite getpost_run. destruct (Do_answer w) as [err|records];
    [split_and!; [reflexivity | cbn; lia | by intros msg [=]]|].
  cbv zeta. pose proof (range_Records_silent w records s) as Hsilent.
  destruct (range_Records w records s) as [[[]|p] s' cs];
    cbn [outcome final calls] in *; subst cs.
  - destruct (currentPost s'); cbn [outcome final calls];
      (split_and!; [reflexivity | cbn; lia | by intros msg [= <-]]).
  - split_and!; [reflexivity | cbn; lia | by intros msg [=]].
Qed.

Lemma on_text_shape (w : World) (text : string) (msg0 : MessageConfig)
    (s : State) :
  let r := on_text w text msg0 s in
  sends (calls r) = [] /\
  (length (store_calls (calls r)) <= 1)%nat /\
  forall msg, outcome r = Returned msg -> ChatID msg = ChatID msg0.
Proof.
  cbv zeta. unfold on_text.
  repeat match goal with
         | |- context [String.eqb ?a ?b] => destruct (String.eqb a b)
         end.
  - rewrite approve_run.
    destruct (currentPost s), (UpdateRecordPartial_err w),
          (UpdateRecordPartial_Records w);
      (split_and!; [reflexivity | cbn; lia | by intros msg [= <-]]).
  - rewrite reject_run.
    destruct (currentPost s), (UpdateRecordPartial_err w),
          (UpdateRecordPartial_Records w);
      (split_and!; [reflexivity | cbn; lia | by intros msg [= <-]]).
  - rewrite skip_run. destruct (currentPost s) as [p|];
      [destruct (guid p) as [[g|b]|]|];
      (split_and!; [reflexivity | cbn; lia | by intros msg [= <-]]).
  - rewrite unsupported_run.
    split_and!; [reflexivity | cbn; lia | by intros msg [= <-]].
Qed.

Lemma sends_app (cs1 cs2 : list Call) :
  sends (cs1 ++ cs2) = (sends cs1 ++ sends cs2)%list.
Proof. apply List.filter_app. Qed.

Lemma store_calls_app (cs1 cs2 : list Call) :
  store_calls (cs1 ++ cs2) = (store_calls cs1 ++ store_calls cs2)%list.
Proof. apply List.filter_app. Qed.

(** What an allowed turn calls: the first log line, then what the command
    or the text does (at most one request to the store, nothing sent),
    then, unless that panicked, the one message to the sender's chat. *)
Lemma handle_shape (w : World) (m : Message) (s : State) :
  let r := handle w m s in
  exists body,
    sends body = [] /\
    (length (store_calls body) <= 1)%nat /\
    ((exists p, outcome r = Panicked p /\ calls r = first_line m :: body)
     \/ (exists msg,
           ChatID msg = ID (Chat_ m) /\
           match Send_err w with
           | Some err =>
               outcome r = Panicked (log_Panic err) /\
               calls r = first_line m :: body ++ [Send msg; Log (panic_line err)]
           | None =>
               outcome r = Returned tt /\
               calls r = first_line m :: body ++ [Send msg]
           end)).
Proof.
  cbv zeta. rewrite handle_run. cbv zeta.
  set (msg0 := NewMessage (ID (Chat_ m)) "").
  assert (Hshape :
    let r0 := (if IsCommand m then on_command w (Command m) msg0
               else on_text w (Text m) msg0) s in
    sends (calls r0) = [] /\
    (length (store_calls (calls r0)) <= 1)%nat /\
    forall msg, outcome r0 = Returned msg -> ChatID msg = ChatID msg0).
  { destruct (IsCommand m); [apply on_command_shape | apply on_text_shape]. }
  cbv zeta in Hshape.
  destruct ((if IsCommand m then on_command w (Command m) msg0
             else on_text w (Text m) msg0) s) as [[msg|p] s' body];
    cbn [outcome final calls] in *;
    destruct Hshape as (Hsends & Hstore & Hchat); exists body;
    (split; [done|]); (split; [done|]).
  - right. exists msg. split; [by apply Hchat|].
    destruct (Send_err w); by split.
  - left. by exists p.
Qed.

Lemma iteration_not_allowed_sends_nothing (envVars : env.Env) (w : World)
    (update : Update) (s : State) :
  (forall m, ~ allowed envVars update m) ->
  calls (iteration envVars w update s) = []
  \/ calls (iteration envVars w update s)
     = [Log (got_update_from_unknown_user update)].
Proof.
  intros Hno. unfold iteration.
  destruct (FromChat update) as [chat|] eqn:Hchat; [|by left].
  destruct (helpers.IDContains _ _) eqn:Hin; cbn [negb]; [|by right].
  destruct (Message_ update) as [m|] eqn:Hm; [|by left].
  exfalso. apply (Hno m). split; [done|].
  unfold FromChat in Hchat. rewrite Hm in Hchat. by injection Hchat as <-.
Qed.

Lemma allowed_or_not (envVars : env.Env) (update : Update) :
  (exists m, allowed envVars update m) \/ (forall m, ~ allowed envVars update m).
Proof.
  unfold allowed. destruct (Message_ update) as [m|].
  - destruct (helpers.IDContains (env.TelegramWhiteList envVars) (ID (Chat_ m)))
      eqn:Hin.
    + left. by exists m.
    + right. intros m' [[= <-] Hin']. congruence.
  - right. by intros m' [[=] _].
Qed.

(** X1: During one turn at most one message is handed to [bot.Send], and it is
    addressed to the chat the update's message came from; a turn of an
    allowed sender that completes has sent exactly one. *)
Theorem turn_sends_at_most_one_message (envVars : env.Env) (w : World)
    (update : Update) (s : State) :
  let r := iteration envVars w update s in
  (sends (calls r) = []
   \/ exists m msg, allowed envVars update m /\
                    ChatID msg = ID (Chat_ m) /\
                    sends (calls r) = [Send msg])
  /\ forall m, allowed envVars update m -> outcome r = Returned tt ->
               exists msg, sends (calls r) = [Send msg].
Proof.
  cbv zeta. destruct (allowed_or_not envVars update) as [[m Hm]|Hno].
  - rewrite (iteration_allowed _ _ _ _ _ Hm).
    destruct (handle_shape w m s) as (body & Hsends & _ & Hcases).
    assert (Hfirst : sends [first_line m] = [])
      by (unfold first_line; by destruct (IsCommand m)).
    destruct Hcases as [(p & Hout & Hcalls)|(msg & Hchat & Hsend)].
    + split.
      * left. rewrite Hcalls. change (first_line m :: body)
          with ([first_line m] ++ body)%list.
        by rewrite sends_app, Hfirst, Hsends.
      * intros m' _ Hret. congruence.
    + assert (Hone : sends (calls (handle w m s)) = [Send msg]).
      { destruct (Send_err w); destruct Hsend as [_ ->];
          change (first_line m :: ?l) with ([first_line m] ++ l)%list;
          by rewrite !sends_app, Hfirst, Hsends. }
      split; [right; by exists m, msg | intros m' _ _; by exists msg].
  - split.
    + left. destruct (iteration_not_allowed_sends_nothing envVars w update s Hno)
        as [-> | ->]; reflexivity.
    + intros m Hm. by destruct (Hno m).
Qed.

(** X2: During one turn the store is called at most once. *)
Theorem turn_calls_store_at_most_once (envVars : env.Env) (w : World)
    (update : Update) (s : State) :
  (length (store_calls (calls (iteration envVars w update s))) <= 1)%nat.
Proof.
  destruct (allowed_or_not envVars update) as [[m Hm]|Hno].
  - rewrite (iteration_allowed _ _ _ _ _ Hm).
    destruct (handle_shape w m s) as (body & _ & Hstore & Hcases).
    assert (Hfirst : store_calls [first_line m] = [])
      by (unfold first_line; by destruct (IsCommand m)).
    assert (Hcalls : store_calls (calls (handle w m s)) = store_calls body).
    { destruct Hcases as [(p & _ & ->)|(msg & _ & Hsend)].
      - change (first_line m :: body) with ([first_line m] ++ body)%list.
        by rewrite store_calls_app, Hfirst.
      - destruct (Send_err w); destruct Hsend as [_ ->];
          change (first_line m :: ?l) with ([first_line m] ++ l)%list;
          rewrite !store_calls_app, Hfirst; cbn; by rewrite app_nil_r. }
    by rewrite Hcalls.
  - destruct (iteration_not_allowed_sends_nothing envVars w update s Hno)
      as [-> | ->]; cbn; lia.
Qed.

(** X3: When the reply cannot be sent, the turn of an allowed sender ends the
    process: either it had panicked before sending, or [bot.Send] was
    called and its error goes to [log.Panic]. *)
Theorem failed_send_is_fatal (envVars : env.Env) (w : World)
    (update : Update) (m : Message) (s : State) (err : string) :
  allowed envVars update m ->
  Send_err w = Some err ->
  let r := iteration envVars w update s in
  (exists p, outcome r = Panicked p /\ sends (calls r) = [])
  \/ (outcome r = Panicked (log_Panic err) /\
      exists pre msg, calls r = (pre ++ [Send msg; Log (panic_line err)])%list).
Proof.
  intros Hm Herr. cbv zeta. rewrite (iteration_allowed _ _ _ _ _ Hm).
  destruct (handle_shape w m s) as (body & Hsends & _ & Hcases).
  destruct Hcases as [(p & Hout & Hcalls)|(msg & _ & Hsend)].
  - left. exists p. split; [done|]. rewrite Hcalls.
    change (first_line m :: body) with ([first_line m] ++ body)%list.
    rewrite sends_app, Hsends. unfold first_line. by destruct (IsCommand m).
  - right. rewrite Herr in Hsend. destruct Hsend as [Hout Hcalls].
    split; [done|]. exists (first_line m :: body), msg. by rewrite Hcalls.
Qed.

Lemma failed_send_is_fatal_witness :
  let r := iteration Sample.envVars
             {| now := 0; Do_answer := inr [Sample.postA];
                UpdateRecordPartial_err := None;
                UpdateRecordPartial_Records := []; Send_err := Some "timeout" |}
             (Sample.command_from Sample.operator "getpost") init in
  (exists p, outcome r = Panicked p /\ sends (calls r) = [])
  \/ (outcome r = Panicked (log_Panic "timeout") /\
      exists pre msg, calls r = (pre ++ [Send msg; Log (panic_line "timeout")])%list).
Proof.
  apply (failed_send_is_fatal Sample.envVars _
           (Sample.command_from Sample.operator "getpost")
           Sample.getpost_message init "timeout");
    [split; reflexivity | reflexivity].
Defined.

(** X4: A command other than [getpost] from an allowed sender leaves the slot
    and the cache as they are and does not call the store; its reply is a
    plain text without keyboard. *)
Theorem plain_command_keeps_state (envVars : env.Env) (w : World)
    (update : Update) (m : Message) (s : State) :
  allowed envVars update m ->
  IsCommand m = true ->
  Command m <> "getpost" ->
  let r := iteration envVars w update s in
  final r = s /\
  store_calls (calls r) = [] /\
  exists text, sends (calls r) = [Send (NewMessage (ID (Chat_ m)) text)].
Proof.
  intros Hallowed Hcmd Hname. cbv zeta. enter_turn Hallowed Hcmd.
  unfold on_command. rewrite (proj2 (String.eqb_neq _ _) Hname).
  repeat match goal with
         | |- context [String.eqb ?a ?b] => destruct (String.eqb a b)
         end;
    cbn [ret outcome final calls]; destruct (Send_err w);
    (split_and!; [reflexivity | reflexivity | eexists; reflexivity]).
Qed.

Lemma plain_command_keeps_state_witness :
  let r := iteration Sample.envVars (Sample.calm 0 [Sample.postB])
             (Sample.command_from Sample.operator "status")
             (Sample.pending Sample.postA) in
  final r = Sample.pending Sample.postA /\
  store_calls (calls r) = [] /\
  exists text, sends (calls r) = [Send (NewMessage 12 text)].
Proof.
  apply (plain_command_keeps_state Sample.envVars (Sample.calm 0 [Sample.postB])
           (Sample.command_from Sample.operator "status")
           {| Chat_ := Sample.operator; Text := "/status";
              IsCommand := true; Command := "status" |}
           (Sample.pending Sample.postA));
    [split; reflexivity | reflexivity | discriminate].
Defined.

(** ** What can change the skip cache *)

(** X5: The skip cache changes in one way only: an allowed sender presses the
    skip button while a candidate with a string identifier is pending, and
    then that identifier is what is set.  Every other turn leaves the cache
    as it is. *)
Theorem only_skip_changes_cache (envVars : env.Env) (w : World)
    (update : Update) (s : State) :
  let r := iteration envVars w update s in
  cache (final r) = cache s
  \/ exists m p g,
       allowed envVars update m /\
       IsCommand m = false /\
       Text m = buttons.Text buttons.SkipButton /\
       currentPost s = Some p /\
       guid p = Some (airtable.AString g) /\
       cache (final r) = ttlcache.Set_DefaultTTL (cache s) (now w) g true.
Proof.
  cbv zeta. destruct (allowed_or_not envVars update) as [[m Hm]|Hno].
  - destruct (IsCommand m) eqn:Hcmd.
    + left. enter_turn Hm Hcmd.
      unfold on_command.
      repeat match goal with
             | |- context [String.eqb ?a ?b] => destruct (String.eqb a b)
             end;
        try (cbn [ret outcome final]; by destruct (Send_err w)).
      rewrite getpost_run. destruct (Do_answer w) as [err|records]; [done|].
      cbv zeta.
      destruct (range_Records_cases w records s)
        as [(q & _ & ->)|[(_ & ->)|(_ & ->)]];
        cbn [outcome final calls currentPost]; [| |done].
      * by destruct (Send_err w).
      * destruct (currentPost s); [by destruct (Send_err w)|done].
    + enter_turn Hm Hcmd.
      destruct (String.eqb_spec (Text m) (buttons.Text buttons.SkipButton))
        as [Hskip|Hskip].
      * rewrite Hskip, on_text_skip, skip_run.
        destruct (currentPost s) as [p|] eqn:Hcur; [|by left].
        destruct (guid p) as [[g|b]|] eqn:Hg; try (by left).
        right. exists m, p, g. split_and!; try done.
        by destruct (Send_err w).
      * left. unfold on_text.
        rewrite (proj2 (String.eqb_neq _ _) Hskip).
        repeat match goal with
               | |- context [String.eqb ?a ?b] => destruct (String.eqb a b)
               end.
        -- rewrite approve_run.
           destruct (currentPost s), (UpdateRecordPartial_err w),
          (UpdateRecordPartial_Records w);
             cbn [outcome final]; try done; by destruct (Send_err w).
        -- rewrite reject_run.
           destruct (currentPost s), (UpdateRecordPartial_err w),
          (UpdateRecordPartial_Records w);
             cbn [outcome final]; try done; by destruct (Send_err w).
        -- rewrite unsupported_run. cbn [outcome final].
           by destruct (Send_err w).
  - left. unfold iteration.
    destruct (FromChat update) as [chat|] eqn:Hchat; [|done].
    destruct (helpers.IDContains _ _) eqn:Hin; cbn [negb]; [|done].
    destruct (Message_ update) as [m|] eqn:Hmsg; [|done].
    exfalso. apply (Hno m). split; [done|].
    unfold FromChat in Hchat. rewrite Hmsg in Hchat. by injection Hchat as <-.
Qed.

(** ** Runs *)

Lemma loop_cons_run (envVars : env.Env) (w : World) (update : Update)
    (rest : list (World * Update)) (s : State) :
  loop envVars ((w, update) :: rest) s
  = let r := iteration envVars w update s in
    match outcome r with
    | Returned _ =>
        let r' := loop envVars rest (final r) in
        mkRun (outcome r') (final r') (calls r ++ calls r')
    | Panicked p => mkRun (Panicked p) (final r) (calls r)
    end.
Proof. reflexivity. Qed.

Lemma outbound_calls_app (cs1 cs2 : list Call) :
  outbound_calls (cs1 ++ cs2)
  = (outbound_calls cs1 ++ outbound_calls cs2)%list.
Proof. apply List.filter_app. Qed.

(** X6: An update that carries a chat, the chat not being on the white list,
    does not interfere: with such an update anywhere among the updates, the
    loop ends as without it, in the same state, and what went out to the
    chat platform and the store is the same. *)
Theorem unknown_updates_do_not_interfere (envVars : env.Env)
    (before after : list (World * Update)) (w : World) (update : Update)
    (chat : Chat) (s : State) :
  FromChat update = Some chat ->
  helpers.IDContains (env.TelegramWhiteList envVars) (ID chat) = false ->
  let with_it := loop envVars (before ++ (w, update) :: after) s in
  let without := loop envVars (before ++ after) s in
  outcome with_it = outcome without /\
  final with_it = final without /\
  outbound_calls (calls with_it) = outbound_calls (calls without).
Proof.
  intros Hchat Hout. cbv zeta. revert s.
  induction before as [|[w0 u0] before IH]; intros s.
  - cbn [app]. rewrite loop_cons_run. cbv zeta.
    assert (Hdrop : iteration envVars w update s
                    = mkRun (Returned tt) s
                        [Log (got_update_from_unknown_user update)]).
    { unfold iteration. by rewrite Hchat, Hout. }
    rewrite Hdrop. cbn [outcome final calls]. split_and!; reflexivity.
  - cbn [app]. rewrite !loop_cons_run. cbv zeta.
    destruct (outcome (iteration envVars w0 u0 s)); [|done].
    cbn [outcome final calls].
    destruct (IH (final (iteration envVars w0 u0 s))) as (Ho & Hf & Hc).
    split_and!; [done..|]. by rewrite !outbound_calls_app, Hc.
Qed.

Lemma unknown_updates_do_not_interfere_witness :
  let with_it := loop Sample.envVars
                   ([Sample.first_fetch]
                    ++ (Sample.calm 50 [], Sample.text_from Sample.stranger
                                             (buttons.Text buttons.ApproveButton))
                    :: [Sample.skip_at_100]) init in
  let without := loop Sample.envVars
                   ([Sample.first_fetch] ++ [Sample.skip_at_100]) init in
  outcome with_it = outcome without /\
  final with_it = final without /\
  outbound_calls (calls with_it) = outbound_calls (calls without).
Proof.
  apply (unknown_updates_do_not_interfere Sample.envVars
           [Sample.first_fetch] [Sample.skip_at_100] (Sample.calm 50 [])
           (Sample.text_from Sample.stranger (buttons.Text buttons.ApproveButton))
           Sample.stranger init); reflexivity.
Defined.

(** X7: In a state the loop can reach, with a candidate pending, the turn of
    an allowed sender's text completes whenever the reply can be sent and
    the store, if it reports no error to an update, answers with the
    updated record: whatever the text, neither the pointer nor the
    identifier's type assertion can fail. *)
Theorem pending_text_turn_completes (envVars : env.Env) (w : World)
    (update : Update) (m : Message) (s : State) (p : airtable.Record_) :
  reachable envVars s ->
  allowed envVars update m ->
  IsCommand m = false ->
  currentPost s = Some p ->
  (UpdateRecordPartial_err w = None -> UpdateRecordPartial_Records w <> []) ->
  Send_err w = None ->
  outcome (iteration envVars w update s) = Returned tt.
Proof.
  intros Hreach Hallowed Hcmd Hcur Hrec Hsend.
  destruct (reachable_well_formed _ _ Hreach) as [_ Hslot].
  specialize (Hslot p Hcur). unfold has_guid in Hslot.
  destruct (guid p) as [[g|b]|] eqn:Hg; [|done..].
  enter_turn Hallowed Hcmd. rewrite Hsend. unfold on_text.
  repeat match goal with
         | |- context [String.eqb ?a ?b] => destruct (String.eqb a b)
         end.
  - rewrite approve_run, Hcur.
    destruct (UpdateRecordPartial_err w); [reflexivity|].
    destruct (UpdateRecordPartial_Records w); [by destruct Hrec|reflexivity].
  - rewrite reject_run, Hcur.
    destruct (UpdateRecordPartial_err w); [reflexivity|].
    destruct (UpdateRecordPartial_Records w); [by destruct Hrec|reflexivity].
  - by rewrite skip_run, Hcur, Hg.
  - by rewrite unsupported_run.
Qed.

Lemma pending_text_turn_completes_witness :
  outcome (iteration Sample.envVars (Sample.calm 100 [])
             (Sample.text_from Sample.operator
                (buttons.Text buttons.ApproveButton))
             (Sample.pending Sample.postA))
  = Returned tt.
Proof.
  apply (pending_text_turn_completes Sample.envVars (Sample.calm 100 [])
           (Sample.text_from Sample.operator (buttons.Text buttons.ApproveButton))
           (Sample.button_message buttons.ApproveButton)
           (Sample.pending Sample.postA) Sample.postA);
    [|split; reflexivity | reflexivity | reflexivity | discriminate
     | reflexivity].
  exists [Sample.first_fetch]. vm_compute. reflexivity.
Defined.

(** With a candidate pending, an approve or reject to which the store
    reports no error but answers with an empty list of records ends the
    process inside the update call: the request was made, nothing is sent,
    the candidate stays in the slot. *)
Lemma decision_empty_response_panics (envVars : env.Env) (w : World)
    (update : Update) (m : Message) (s : State) (p : airtable.Record_)
    (d : Decision) :
  allowed envVars update m ->
  IsCommand m = false ->
  Text m = buttons.Text (button_of d) ->
  currentPost s = Some p ->
  UpdateRecordPartial_err w = None ->
  UpdateRecordPartial_Records w = [] ->
  iteration envVars w update s
  = mkRun (Panicked records_index_out_of_range) s
      [Log (got_text (Text m));
       UpdateRecordPartial (airtable.ID p) (fields_of d)].
Proof.
  intros Hallowed Hcmd Htext Hcur Hok Hrec. enter_turn Hallowed Hcmd.
  by rewrite Htext, on_text_decision, Hcur, Hok, Hrec.
Qed.

(** X8: A decision the store accepts, answering with the updated record,
    does not end the candidate: a second approve or reject press right
    after it patches the same record. *)
Theorem decisions_hit_same_record (envVars : env.Env) (w1 w2 : World)
    (u1 u2 : Update) (m1 m2 : Message) (d1 d2 : Decision) (s : State)
    (p : airtable.Record_) :
  allowed envVars u1 m1 -> IsCommand m1 = false ->
  Text m1 = buttons.Text (button_of d1) ->
  allowed envVars u2 m2 -> IsCommand m2 = false ->
  Text m2 = buttons.Text (button_of d2) ->
  currentPost s = Some p ->
  UpdateRecordPartial_err w1 = None ->
  UpdateRecordPartial_Records w1 <> [] ->
  Send_err w1 = None ->
  store_calls (calls (loop envVars [(w1, u1); (w2, u2)] s))
  = [UpdateRecordPartial (airtable.ID p) (fields_of d1);
     UpdateRecordPartial (airtable.ID p) (fields_of d2)].
Proof.
  intros Ha1 Hc1 Ht1 Ha2 Hc2 Ht2 Hcur Hok Hrec Hsend.
  rewrite loop_cons_run. cbv zeta.
  assert (H1 : iteration envVars w1 u1 s
               = mkRun (Returned tt) s
                   [Log (got_text (Text m1));
                    UpdateRecordPartial (airtable.ID p) (fields_of d1);
                    Send (NewMessage (ID (Chat_ m1)) (confirmation_of d1))]).
  { enter_turn Ha1 Hc1. rewrite Ht1, on_text_decision, Hcur, Hok, Hsend.
    by destruct (UpdateRecordPartial_Records w1). }
  rewrite H1. cbn [outcome final calls].
  rewrite loop_cons_run. cbv zeta.
  enter_turn Ha2 Hc2. rewrite Ht2, on_text_decision, Hcur.
  destruct (UpdateRecordPartial_err w2), (UpdateRecordPartial_Records w2),
    (Send_err w2); reflexivity.
Qed.

Lemma decisions_hit_same_record_witness :
  store_calls
    (calls (loop Sample.envVars
              [(Sample.calm 1 [], Sample.text_from Sample.operator
                                    (buttons.Text buttons.ApproveButton));
               (Sample.calm 2 [], Sample.text_from Sample.operator
                                    (buttons.Text buttons.RejectButton))]
              (Sample.pending Sample.postA)))
  = [UpdateRecordPartial "recA" (fields_of Approve);
     UpdateRecordPartial "recA" (fields_of Reject)].
Proof.
  apply (decisions_hit_same_record Sample.envVars (Sample.calm 1 [])
           (Sample.calm 2 []) _ _
           (Sample.button_message buttons.ApproveButton)
           (Sample.button_message buttons.RejectButton)
           Approve Reject (Sample.pending Sample.postA) Sample.postA);
    [split; reflexivity | reflexivity | reflexivity | split; reflexivity
    | reflexivity | reflexivity | reflexivity | reflexivity | discriminate
    | reflexivity].
Defined.

(** ** Panics of a turn *)

Lemma range_Records_bad_guid (w : World) (records : list airtable.Record_)
    (s : State) :
  stops_on_bad_guid (cache s) (now w) records ->
  range_Records w records s = mkRun (Panicked type_assertion) s [].
Proof.
  intros (pre & p & post & -> & Hpre & Hp).
  induction Hpre as [|r pre Hr _ IH]; cbn [range_Records app].
  - unfold has_guid in Hp. by destruct (guid p) as [[g|b]|].
  - unfold cached in Hr. destruct (guid r) as [[g|b]|]; [|done..].
    run_monad. rewrite Hr, IH. reflexivity.
Qed.

(** X9: A fetch whose records show, before any record outside the skip cache,
    one whose [guid] field is missing or is no string ends the process in
    the failed type assertion: the query was made, nothing is sent, the
    state is as before. *)
Theorem getpost_bad_guid_panics (envVars : env.Env) (w : World)
    (update : Update) (m : Message)
    (pre post : list airtable.Record_) (bad : airtable.Record_) (s : State) :
  allowed envVars update m ->
  IsCommand m = true ->
  Command m = "getpost" ->
  Do_answer w = inr (pre ++ bad :: post)%list ->
  Forall (fun r => cached (cache s) (now w) r = true) pre ->
  (guid bad = None \/ exists b, guid bad = Some (airtable.ABool b)) ->
  iteration envVars w update s
  = mkRun (Panicked type_assertion) s
      [Log (got_command "getpost"); GetRecords_Do].
Proof.
  intros Hallowed Hcmd Hname Hdo Hpre Hbad.
  rewrite (getpost_turn _ _ _ _ _ _ Hallowed Hcmd Hname Hdo). cbv zeta.
  rewrite range_Records_bad_guid; [reflexivity|].
  exists pre, bad, post. split_and!; [done..|].
  unfold has_guid. by destruct Hbad as [->|[b ->]].
Qed.

Lemma getpost_bad_guid_panics_witness :
  iteration Sample.envVars
    (Sample.calm 0 [{| airtable.ID := "recX";
                       airtable.Fields := {[ "Title" := airtable.AString "No link" ]} |};
                    Sample.postA])
    (Sample.command_from Sample.operator "getpost") init
  = mkRun (Panicked type_assertion) init
      [Log (got_command "getpost"); GetRecords_Do].
Proof.
  apply (getpost_bad_guid_panics Sample.envVars _
           (Sample.command_from Sample.operator "getpost")
           Sample.getpost_message []
           [Sample.postA]
           {| airtable.ID := "recX";
              airtable.Fields := {[ "Title" := airtable.AString "No link" ]} |}
           init);
    [split; reflexivity | reflexivity | reflexivity | reflexivity
    | constructor | left; reflexivity].
Defined.

(** X10: An update that carries no message (an edited message, a channel post,
    a callback...) ends the process on a nil pointer unless its chat is
    outside the white list: without a chat at the white-list check, from
    an allowed chat when the reply is prepared.  Nothing is logged. *)
Theorem update_without_message_panics (envVars : env.Env) (w : World)
    (update : Update) (s : State) :
  Message_ update = None ->
  (forall chat, OtherChat update = Some chat ->
     helpers.IDContains (env.TelegramWhiteList envVars) (ID chat) = true) ->
  iteration envVars w update s = mkRun (Panicked nil_dereference) s [].
Proof.
  intros Hmsg Hchat. unfold iteration, FromChat. rewrite Hmsg.
  destruct (OtherChat update) as [chat|]; [|reflexivity].
  by rewrite (Hchat chat eq_refl).
Qed.

Lemma update_without_message_panics_witness :
  iteration Sample.envVars (Sample.calm 0 [])
    {| Message_ := None; OtherChat := Some Sample.operator |}
    (Sample.pending Sample.postA)
  = mkRun (Panicked nil_dereference) (Sample.pending Sample.postA) [].
Proof.
  apply (update_without_message_panics Sample.envVars (Sample.calm 0 [])
           {| Message_ := None; OtherChat := Some Sample.operator |}
           (Sample.pending Sample.postA)); [reflexivity|].
  intros chat [= <-]. reflexivity.
Defined.

(** ** The configuration, continued *)

Lemma parse_loop_inv (pieces : list string) (acc res : list Z) :
  env.parse_loop pieces acc = Some res ->
  exists ids,
    res = (acc ++ ids)%list /\
    Forall2 (fun piece i => strconv.ParseInt piece = Some i) pieces ids.
Proof.
  revert acc. induction pieces as [|piece rest IH]; intros acc; cbn [env.parse_loop].
  - intros [= <-]. exists []. by rewrite app_nil_r.
  - destruct (strconv.ParseInt piece) as [i|] eqn:Hp; [|done].
    intros H. destruct (IH _ H) as (ids & -> & Hall).
    exists (i :: ids). rewrite <- app_assoc. split; [done|by constructor].
Qed.

Lemma parse_loop_fails (pieces : list string) (acc : list Z) (piece : string) :
  In piece pieces -> strconv.ParseInt piece = None ->
  env.parse_loop pieces acc = None.
Proof.
  intros Hin Hbad. revert acc.
  induction pieces as [|p rest IH]; intros acc; [done|].
  cbn [env.parse_loop]. destruct Hin as [->|Hin]; [by rewrite Hbad|].
  destruct (strconv.ParseInt p); [by apply IH|done].
Qed.

Lemma is_empty_true (s : string) : env.is_empty s = true -> s = "".
Proof. by destruct s. Qed.

(** X12: When [env.New] returns, the four text settings are the values of
    their variables and none is empty, and the white list is as many
    zeroes as TELEGRAM_WHITELIST has comma-separated pieces followed by
    what each piece parses to. *)
Theorem New_returns_only_complete (Getenv : string -> string) (e : env.Env) :
  env.New Getenv = Some e ->
  env.TelegramToken e = Getenv "TELEGRAM_TOKEN" /\
  env.AirtableApiKey e = Getenv "AIRTABLE_API_KEY" /\
  env.AirtableBaseId e = Getenv "AIRTABLE_BASE_ID" /\
  env.AirtableTableName e = Getenv "AIRTABLE_TABLE_NAME" /\
  env.TelegramToken e <> "" /\ env.AirtableApiKey e <> "" /\
  env.AirtableBaseId e <> "" /\ env.AirtableTableName e <> "" /\
  exists ids,
    Forall2 (fun piece i => strconv.ParseInt piece = Some i)
      (strings.Split (Getenv "TELEGRAM_WHITELIST") ",") ids /\
    env.TelegramWhiteList e = (replicate (length ids) 0 ++ ids)%list.
Proof.
  unfold env.New.
  destruct (env.is_empty (Getenv "TELEGRAM_TOKEN")) eqn:Htok; [done|].
  destruct (env.parse_loop _ _) as [wl|] eqn:Hwl; [|done].
  destruct (env.is_empty (Getenv "AIRTABLE_API_KEY")) eqn:Hkey; [done|].
  destruct (env.is_empty (Getenv "AIRTABLE_BASE_ID")) eqn:Hbase; [done|].
  destruct (env.is_empty (Getenv "AIRTABLE_TABLE_NAME")) eqn:Htable; [done|].
  intros [= <-]. cbn.
  assert (Hne : forall v, env.is_empty v = false -> v <> "")
    by (intros v Hv ->; discriminate).
  split_and!; try reflexivity; try (by apply Hne).
  destruct (parse_loop_inv _ _ _ Hwl) as (ids & -> & Hall).
  exists ids. split; [done|].
  unfold env.make. by rewrite (Forall2_length _ _ _ Hall).
Qed.

Lemma New_returns_only_complete_witness :
  env.TelegramToken Sample.envVars = Sample.Getenv "TELEGRAM_TOKEN" /\
  env.AirtableApiKey Sample.envVars = Sample.Getenv "AIRTABLE_API_KEY" /\
  env.AirtableBaseId Sample.envVars = Sample.Getenv "AIRTABLE_BASE_ID" /\
  env.AirtableTableName Sample.envVars = Sample.Getenv "AIRTABLE_TABLE_NAME" /\
  env.TelegramToken Sample.envVars <> "" /\
  env.AirtableApiKey Sample.envVars <> "" /\
  env.AirtableBaseId Sample.envVars <> "" /\
  env.AirtableTableName Sample.envVars <> "" /\
  exists ids,
    Forall2 (fun piece i => strconv.ParseInt piece = Some i)
      (strings.Split (Sample.Getenv "TELEGRAM_WHITELIST") ",") ids /\
    env.TelegramWhiteList Sample.envVars = (replicate (length ids) 0 ++ ids)%list.
Proof.
  apply (New_returns_only_complete Sample.Getenv Sample.envVars).
  vm_compute. reflexivity.
Defined.

(** X13: One piece of TELEGRAM_WHITELIST that does not parse is enough for
    [env.New] to exit.  The empty piece is such a piece: an unset or empty
    variable, a comma at either end, two commas in a row. *)
Theorem New_exits_on_bad_piece (Getenv : string -> string) (piece : string) :
  In piece (strings.Split (Getenv "TELEGRAM_WHITELIST") ",") ->
  strconv.ParseInt piece = None ->
  env.New Getenv = None.
Proof.
  intros Hin Hbad. unfold env.New.
  destruct (env.is_empty (Getenv "TELEGRAM_TOKEN")); [done|].
  by rewrite (parse_loop_fails _ _ piece Hin Hbad).
Qed.

Lemma New_exits_on_bad_piece_witness :
  env.New (fun name => if String.eqb name "TELEGRAM_WHITELIST" then ""
                       else Sample.Getenv name) = None
  /\ env.New (fun name => if String.eqb name "TELEGRAM_WHITELIST" then "12, 7"
                          else Sample.Getenv name) = None.
Proof.
  split.
  - apply (New_exits_on_bad_piece _ ""); [left; reflexivity | reflexivity].
  - apply (New_exits_on_bad_piece _ " 7");
      [right; left; reflexivity | reflexivity].
Defined.

Lemma digit_range (c : ascii) (d : Z) : strconv.digit c = Some d -> 0 <= d <= 9.
Proof.
  unfold strconv.digit.
  destruct (48 <=? Z.of_N (N_of_ascii c)) eqn:H1; [|done].
  destruct (Z.of_N (N_of_ascii c) <=? 57) eqn:H2; [|done].
  intros [= <-]. apply Z.leb_le in H1. apply Z.leb_le in H2. lia.
Qed.

Lemma digits_nonneg (s : string) (acc n : Z) :
  0 <= acc -> strconv.digits s acc = Some n -> 0 <= n.
Proof.
  revert acc. induction s as [|c rest IH]; intros acc Hacc; cbn [strconv.digits].
  - by intros [= <-].
  - destruct (strconv.digit c) as [d|] eqn:Hd; [|done].
    apply digit_range in Hd. apply IH. lia.
Qed.

Lemma ParseInt_int64 (s : string) (i : Z) :
  strconv.ParseInt s = Some i -> - 2 ^ 63 <= i < 2 ^ 63.
Proof.
  unfold strconv.ParseInt. destruct s as [|c rest]; [done|].
  cbv zeta.
  match goal with |- context [strconv.ParseUint ?b] => set (body := b) end.
  destruct (strconv.ParseUint body) as [un|] eqn:Hun; [|done].
  assert (0 <= un).
  { unfold strconv.ParseUint in Hun. destruct body; [done|].
    by apply (digits_nonneg _ 0 un) in Hun. }
  destruct (Ascii.eqb c "-"); cbn [negb andb].
  - destruct (2 ^ 63 <? un) eqn:Hcut; [done|].
    intros [= <-]. apply Z.ltb_ge in Hcut. lia.
  - destruct (2 ^ 63 <=? un) eqn:Hcut; [done|].
    intros [= <-]. apply Z.leb_gt in Hcut. lia.
Qed.

(** X14: Every entry of the white list [env.New] returns is an [int64]. *)
Theorem New_whitelist_int64 (Getenv : string -> string) (e : env.Env) :
  env.New Getenv = Some e ->
  Forall (fun id => - 2 ^ 63 <= id < 2 ^ 63) (env.TelegramWhiteList e).
Proof.
  unfold env.New.
  destruct (env.is_empty (Getenv "TELEGRAM_TOKEN")); [done|].
  destruct (env.parse_loop _ _) as [wl|] eqn:Hwl; [|done].
  destruct (env.is_empty (Getenv "AIRTABLE_API_KEY")); [done|].
  destruct (env.is_empty (Getenv "AIRTABLE_BASE_ID")); [done|].
  destruct (env.is_empty (Getenv "AIRTABLE_TABLE_NAME")); [done|].
  intros [= <-]. cbn [env.TelegramWhiteList].
  destruct (parse_loop_inv _ _ _ Hwl) as (ids & -> & Hall).
  apply Forall_app. split.
  - unfold env.make. apply Forall_forall. intros x Hx.
    apply elem_of_replicate in Hx as [-> _]. lia.
  - clear Hwl. induction Hall as [|piece i pieces ids Hp _ IH];
      constructor; [by apply (ParseInt_int64 piece)|done].
Qed.

Lemma New_whitelist_int64_witness :
  Forall (fun id => - 2 ^ 63 <= id < 2 ^ 63) (env.TelegramWhiteList Sample.envVars).
Proof.
  apply (New_whitelist_int64 Sample.Getenv Sample.envVars).
  vm_compute. reflexivity.
Defined.

(** * The Airtable sample program *)

(** ** The index manager *)

Lemma int_small (z : Z) : - 2 ^ 63 <= z < 2 ^ 63 -> airsample.int z = z.
Proof.
  intros H. unfold airsample.int. rewrite Z.mod_small; lia.
Qed.

Lemma NewIndexMgr_page (n : Z) : airsample.NewIndexMgr n = page n 0.
Proof.
  unfold airsample.NewIndexMgr, page, airsample.maxUpdates. f_equal.
  change (10 * Z.of_nat 0 + 10) with 10.
  destruct (Z.ltb_spec n 10); lia.
Qed.

Lemma next_page (n : Z) (i : nat) :
  0 <= n -> n + 10 < 2 ^ 63 -> 10 * Z.of_nat i + 10 < 2 ^ 63 ->
  airsample.next (page n i) = page n (S i).
Proof.
  intros Hn Hmax Hi. unfold airsample.next, page, airsample.maxUpdates.
  cbn [airsample.From airsample.To airsample.Last].
  rewrite !int_small by lia.
  f_equal; [lia|].
  destruct (Z.ltb_spec n (Z.min (10 * Z.of_nat i + 10) n + 10)); lia.
Qed.

(** X15: After [i] calls of [next] on a fresh index manager for [n] records,
    [From] is [10 i] and [To] is [10 i + 10] capped at [n] (so [To] falls
    below [From] once the records are exhausted), as long as [10 i] and
    [n + 10] fit in an [int]. *)
Theorem IndexMgr_after_next (n : Z) (i : nat) :
  0 <= n -> n + 10 < 2 ^ 63 -> 10 * Z.of_nat i < 2 ^ 63 ->
  Nat.iter i airsample.next (airsample.NewIndexMgr n)
  = {| airsample.From := 10 * Z.of_nat i;
       airsample.To := Z.min (10 * Z.of_nat i + 10) n;
       airsample.Last := n |}.
Proof.
  intros Hn Hmax. induction i as [|i IH]; intros Hi.
  - apply NewIndexMgr_page.
  - rewrite Nat.iter_succ, IH by lia. fold (page n i).
    rewrite next_page by lia. reflexivity.
Qed.

Lemma IndexMgr_after_next_witness :
  Nat.iter 2 airsample.next (airsample.NewIndexMgr 18)
  = {| airsample.From := 10 * Z.of_nat 2;
       airsample.To := Z.min (10 * Z.of_nat 2 + 10) 18;
       airsample.Last := 18 |}.
Proof.
  apply (IndexMgr_after_next 18 2); vm_compute; congruence.
Defined.

(** ** Sending in pages *)

Lemma slice_page {A} (orders : list A) (i : nat) :
  10 * Z.of_nat i < airsample.len orders ->
  airsample.slice orders (airsample.From (page (airsample.len orders) i))
    (airsample.To (page (airsample.len orders) i))
  = Some (page_content orders i).
Proof.
  intros Hi. unfold airsample.slice, page, page_content.
  cbn [airsample.From airsample.To]. unfold airsample.len in *.
  set (n := Z.of_nat (length orders)) in *.
  assert (Hlo : (0 <=? 10 * Z.of_nat i) = true) by (apply Z.leb_le; lia).
  assert (Hmid : (10 * Z.of_nat i <=? Z.min (10 * Z.of_nat i + 10) n) = true)
    by (apply Z.leb_le; lia).
  assert (Hhi : (Z.min (10 * Z.of_nat i + 10) n <=? n) = true)
    by (apply Z.leb_le; lia).
  rewrite Hlo, Hmid, Hhi. cbn [andb]. f_equal.
  replace (Z.to_nat (10 * Z.of_nat i)) with (10 * i)%nat by lia.
  destruct (Z.le_gt_cases (10 * Z.of_nat i + 10) n) as [Hfull|Hlast].
  - f_equal. lia.
  - rewrite !take_ge; [done|rewrite length_drop; lia..].
Qed.

Lemma page_content_not_nil {A} (orders : list A) (i : nat) :
  10 * Z.of_nat i < airsample.len orders -> page_content orders i <> [].
Proof.
  unfold airsample.len, page_content. intros Hi Hnil.
  apply (f_equal length) in Hnil.
  rewrite length_take, length_drop in Hnil. cbn [length] in Hnil. lia.
Qed.

Lemma page_content_drop {A} (orders : list A) (i : nat) :
  drop (10 * i) orders = (page_content orders i ++ drop (10 * S i) orders)%list.
Proof.
  unfold page_content.
  replace (10 * S i)%nat with (10 * i + 10)%nat by lia.
  by rewrite <- drop_drop, take_drop.
Qed.

Lemma pages_loop_spec {A} (answer : nat -> list A -> string + list A)
    (orders : list A) (fuel : nat) :
  airsample.len orders + 10 < 2 ^ 63 ->
  forall (i : nat) (results : list A),
    10 * Z.of_nat i < airsample.len orders + 10 ->
    Z.max 0 (airsample.len orders - 10 * Z.of_nat i) < Z.of_nat fuel ->
    let r := airsample.pages_loop answer orders fuel i
               (page (airsample.len orders) i) results in
    (forall j c, airsample.sent r !! j = Some c ->
                 c = page_content orders (i + j) /\ c <> []) /\
    airsample.ended r <> airsample.out_of_fuel /\
    airsample.ended r <> airsample.index_out_of_range /\
    (forall res, airsample.ended r = airsample.finished res ->
                 concat (airsample.sent r) = drop (10 * i) orders) /\
    (forall err, airsample.ended r = airsample.log_Panicln err ->
                 exists pre content,
                   airsample.sent r = (pre ++ [content])%list /\
                   answer (i + length pre)%nat content = inl err).
Proof.
  intros Hmax. cbv zeta.
  assert (Hn : 0 <= airsample.len orders) by (unfold airsample.len; lia).
  induction fuel as [|fuel IH]; intros i results Hi Hfuel; [lia|].
  cbn [airsample.pages_loop].
  destruct (Z.ltb_spec (airsample.From (page (airsample.len orders) i))
              (airsample.len orders)) as [Hlt|Hge].
  - change (10 * Z.of_nat i < airsample.len orders) in Hlt.
    rewrite (slice_page orders i Hlt).
    destruct (answer i (page_content orders i)) as [err|records] eqn:Hans.
    + cbn [airsample.sent airsample.ended]. split_and!; try done.
      * intros [|j] c Hc; [|done]. injection Hc as <-.
        rewrite Nat.add_0_r. split; [done|by apply page_content_not_nil].
      * intros e [= <-]. exists [], (page_content orders i).
        by rewrite Nat.add_0_r.
    + rewrite next_page by lia. cbn [airsample.sent airsample.ended].
      destruct (IH (S i) (results ++ records)%list) as (Hsent & Hf & Hr & Hfin & Herr);
        [lia | lia |].
      split_and!; try done.
      * intros [|j] c Hc.
        -- injection Hc as <-. rewrite Nat.add_0_r.
           split; [done|by apply page_content_not_nil].
        -- replace (i + S j)%nat with (S i + j)%nat by lia. by apply Hsent.
      * intros res Hres. cbn [concat]. rewrite (Hfin res Hres).
        symmetry. apply page_content_drop.
      * intros e He. destruct (Herr e He) as (pre & content & Hpre & Hbad).
        exists (page_content orders i :: pre), content.
        rewrite Hpre. split; [done|].
        by replace (i + length (page_content orders i :: pre))%nat
          with (S i + length pre)%nat by (cbn [length]; lia).
  - cbn [airsample.sent airsample.ended]. split_and!; try done.
    intros res _. cbn [concat]. symmetry. apply drop_ge.
    change (airsample.len orders <= 10 * Z.of_nat i) in Hge.
    unfold airsample.len in Hge. lia.
Qed.

Lemma send_in_pages_spec {A} (answer : nat -> list A -> string + list A)
    (orders : list A) :
  airsample.len orders + 10 < 2 ^ 63 ->
  let r := airsample.send_in_pages answer orders in
  (forall j c, airsample.sent r !! j = Some c ->
               c = page_content orders j /\ c <> []) /\
  airsample.ended r <> airsample.out_of_fuel /\
  airsample.ended r <> airsample.index_out_of_range /\
  (forall res, airsample.ended r = airsample.finished res ->
               concat (airsample.sent r) = orders) /\
  (forall err, airsample.ended r = airsample.log_Panicln err ->
               exists pre content,
                 airsample.sent r = (pre ++ [content])%list /\
                 answer (length pre) content = inl err).
Proof.
  intros Hmax. unfold airsample.send_in_pages. rewrite NewIndexMgr_page.
  apply (pages_loop_spec answer orders (S (length orders)) Hmax 0%nat []);
    unfold airsample.len in *; lia.
Qed.

(** X16: The sending loop of [addOrders] and [updateOrders], for any records
    (fewer than 2^63 - 10 of them) and whatever the requests are answered:
    the [j]-th request made carries the records from the [10 j]-th on, ten
    of them or, in the last page, what is left, and never none; the slice
    expression never goes out of range and the loop comes to an end. *)
Theorem send_in_pages_by_ten {A} (answer : nat -> list A -> string + list A)
    (orders : list A) :
  airsample.len orders + 10 < 2 ^ 63 ->
  let r := airsample.send_in_pages answer orders in
  (forall j c, airsample.sent r !! j = Some c ->
               c = take 10 (drop (10 * j) orders) /\
               (1 <= length c <= 10)%nat) /\
  airsample.ended r <> airsample.index_out_of_range /\
  airsample.ended r <> airsample.out_of_fuel.
Proof.
  intros Hmax. cbv zeta.
  destruct (send_in_pages_spec answer orders Hmax) as (Hsent & Hf & Hr & _).
  split_and!; [|done..].
  intros j c Hc. destruct (Hsent j c Hc) as [Heq Hne].
  unfold page_content in Heq. split; [done|]. split.
  - destruct c; [done | cbn [length]; lia].
  - rewrite Heq, length_take. lia.
Qed.

Lemma send_in_pages_by_ten_witness :
  let r := airsample.send_in_pages (fun _ c => inr c) (seq 0 23) in
  (forall j c, airsample.sent r !! j = Some c ->
               c = take 10 (drop (10 * j) (seq 0 23)) /\
               (1 <= length c <= 10)%nat) /\
  airsample.ended r <> airsample.index_out_of_range /\
  airsample.ended r <> airsample.out_of_fuel.
Proof.
  apply (send_in_pages_by_ten (fun _ c => inr c) (seq 0 23)).
  vm_compute. reflexivity.
Defined.

(** X17: When every request is accepted, the loop finishes and the requests,
    put end to end, are the records: each was sent once, in order (and
    with no records no request is made). *)
Theorem send_in_pages_sends_all {A} (answer : nat -> list A -> string + list A)
    (orders : list A) :
  airsample.len orders + 10 < 2 ^ 63 ->
  (forall k content, exists records, answer k content = inr records) ->
  let r := airsample.send_in_pages answer orders in
  (exists results, airsample.ended r = airsample.finished results) /\
  concat (airsample.sent r) = orders.
Proof.
  intros Hmax Hok. cbv zeta.
  destruct (send_in_pages_spec answer orders Hmax)
    as (_ & Hf & Hr & Hfin & Herr).
  destruct (airsample.ended (airsample.send_in_pages answer orders))
    as [results| |err|] eqn:Hend; [|done| |done].
  - split; [by exists results|]. by apply (Hfin results).
  - destruct (Herr err eq_refl) as (pre & content & _ & Hbad).
    destruct (Hok (length pre) content) as [records Hrec]. congruence.
Qed.

Lemma send_in_pages_sends_all_witness :
  let r := airsample.send_in_pages (fun _ c => inr c) (seq 0 23) in
  (exists results, airsample.ended r = airsample.finished results) /\
  concat (airsample.sent r) = seq 0 23.
Proof.
  apply (send_in_pages_sends_all (fun _ c => inr c) (seq 0 23));
    [vm_compute; reflexivity | intros k content; by exists content].
Defined.

Lemma pages_loop_refused {A} (answer : nat -> list A -> string + list A)
    (orders : list A) (err : string) (d : nat) :
  airsample.len orders + 10 < 2 ^ 63 ->
  forall (fuel i : nat) (results : list A),
    10 * Z.of_nat (i + d) < airsample.len orders ->
    airsample.len orders - 10 * Z.of_nat i < Z.of_nat fuel ->
    (forall j, (i <= j < i + d)%nat ->
               exists records, answer j (page_content orders j) = inr records) ->
    answer (i + d)%nat (page_content orders (i + d)) = inl err ->
    let r := airsample.pages_loop answer orders fuel i
               (page (airsample.len orders) i) results in
    airsample.ended r = airsample.log_Panicln err /\
    airsample.sent r = map (page_content orders) (seq i (S d)).
Proof.
  intros Hmax. cbv zeta.
  assert (Hn : 0 <= airsample.len orders) by (unfold airsample.len; lia).
  induction d as [|d IH]; intros fuel i results Hk Hfuel Hok Hbad;
    (destruct fuel as [|fuel]; [lia|]); cbn [airsample.pages_loop].
  - rewrite Nat.add_0_r in *.
    destruct (Z.ltb_spec (airsample.From (page (airsample.len orders) i))
                (airsample.len orders)) as [Hlt|Hge];
      [|change (airsample.len orders <= 10 * Z.of_nat i) in Hge; lia].
    rewrite (slice_page orders i Hlt), Hbad. by split.
  - assert (Hlt : 10 * Z.of_nat i < airsample.len orders) by lia.
    destruct (Z.ltb_spec (airsample.From (page (airsample.len orders) i))
                (airsample.len orders)) as [_|Hge];
      [|change (airsample.len orders <= 10 * Z.of_nat i) in Hge; lia].
    rewrite (slice_page orders i Hlt).
    destruct (Hok i) as [records ->]; [lia|].
    rewrite next_page by lia. cbn [airsample.sent airsample.ended].
    replace (i + S d)%nat with (S i + d)%nat in * by lia.
    destruct (IH fuel (S i) (results ++ records)%list) as [Hend Hsent];
      [lia | lia | intros j Hj; apply Hok; lia | done |].
    split; [done|]. by rewrite Hsent.
Qed.

(** X18: When the store refuses the request for page [k], having accepted
    those before, the loop ends there in [log.Panicln]: the requests made
    are the pages up to the refused one, and the records of the later
    pages are not sent. *)
Theorem send_in_pages_stops_at_error {A}
    (answer : nat -> list A -> string + list A) (orders : list A)
    (k : nat) (err : string) :
  airsample.len orders + 10 < 2 ^ 63 ->
  10 * Z.of_nat k < airsample.len orders ->
  (forall j, (j < k)%nat ->
             exists records,
               answer j (take 10 (drop (10 * j) orders)) = inr records) ->
  answer k (take 10 (drop (10 * k) orders)) = inl err ->
  let r := airsample.send_in_pages answer orders in
  airsample.ended r = airsample.log_Panicln err /\
  airsample.sent r
  = map (fun j => take 10 (drop (10 * j) orders)) (seq 0 (S k)).
Proof.
  intros Hmax Hk Hok Hbad. cbv zeta.
  unfold airsample.send_in_pages. rewrite NewIndexMgr_page.
  apply (pages_loop_refused answer orders err k Hmax (S (length orders)) 0%nat []).
  - exact Hk.
  - unfold airsample.len. lia.
  - intros j Hj. apply Hok. lia.
  - exact Hbad.
Qed.

Lemma send_in_pages_stops_at_error_witness :
  let r := airsample.send_in_pages
             (fun k c => if Nat.eqb k 1 then inl "422" else inr c)
             (seq 0 23) in
  airsample.ended r = airsample.log_Panicln "422" /\
  airsample.sent r
  = map (fun j => take 10 (drop (10 * j) (seq 0 23))) (seq 0 2).
Proof.
  apply (send_in_pages_stops_at_error
           (fun k c => if Nat.eqb k 1 then inl "422" else inr c)
           (seq 0 23) 1 "422").
  - vm_compute. reflexivity.
  - vm_compute. reflexivity.
  - intros j Hj. assert (j = 0%nat) as -> by lia. by eexists.
  - reflexivity.
Defined.

(** In the sample run above the third page, records 20 to 22, is never
    requested. *)
Example send_in_pages_error_sample :
  airsample.sent
    (airsample.send_in_pages
       (fun k c => if Nat.eqb k 1 then inl "422" else inr c) (seq 0 23))
  = [seq 0 10; seq 10 10].
Proof. vm_compute. reflexivity. Qed.

(** ** The client constructor *)

Lemma NewAirClient_snoc (baseId apiKey : string)
    (opts : list airsample.Option_) (opt : airsample.Option_) :
  airsample.NewAirClient baseId apiKey (opts ++ [opt])
  = opt (airsample.NewAirClient baseId apiKey opts).
Proof. unfold airsample.NewAirClient. by rewrite fold_left_app. Qed.

(** X19: Options are applied in order, so the last one of a kind decides:
    whatever options come first, the timeout is the one of the last
    [WithTimeout] (only [WithRequestDelay] options follow it), and the
    request delay the one of the last [WithRequestDelay]. *)
Theorem NewAirClient_last_option_wins (baseId apiKey : string)
    (pre post : list airsample.Option_) (z : Z) :
  (Forall (fun opt => exists d, opt = airsample.WithRequestDelay d) post ->
   airsample.client_Timeout
     (airsample.NewAirClient baseId apiKey
        (pre ++ airsample.WithTimeout z :: post)) = z)
  /\ (Forall (fun opt => exists t, opt = airsample.WithTimeout t) post ->
      airsample.requestDelay
        (airsample.NewAirClient baseId apiKey
           (pre ++ airsample.WithRequestDelay z :: post)) = z).
Proof.
  split; induction post as [|opt post IH] using rev_ind; intros Hall.
  - by rewrite NewAirClient_snoc.
  - apply Forall_app in Hall as [Hpost Hopt].
    apply Forall_cons in Hopt as [[d ->] _].
    rewrite app_comm_cons, app_assoc, NewAirClient_snoc.
    cbn [airsample.WithRequestDelay airsample.client_Timeout].
    by apply IH.
  - by rewrite NewAirClient_snoc.
  - apply Forall_app in Hall as [Hpost Hopt].
    apply Forall_cons in Hopt as [[t ->] _].
    rewrite app_comm_cons, app_assoc, NewAirClient_snoc.
    cbn [airsample.WithTimeout airsample.requestDelay].
    by apply IH.
Qed.

Lemma NewAirClient_last_option_wins_witness :
  airsample.client_Timeout
    (airsample.NewAirClient "appXXXXXXXXXXXXXX" "keyXXXXXXXXXXXXXX"
       ([airsample.WithTimeout 1; airsample.WithRequestDelay 2]
        ++ airsample.WithTimeout 3 :: [airsample.WithRequestDelay 4])) = 3
  /\ airsample.requestDelay
       (airsample.NewAirClient "appXXXXXXXXXXXXXX" "keyXXXXXXXXXXXXXX"
          ([airsample.WithTimeout 1; airsample.WithRequestDelay 2]
           ++ airsample.WithRequestDelay 3 :: [airsample.WithTimeout 4])) = 3.
Proof.
  split.
  - apply (proj1 (NewAirClient_last_option_wins _ _
                    [airsample.WithTimeout 1; airsample.WithRequestDelay 2]
                    [airsample.WithRequestDelay 4] 3)).
    constructor; [by exists 4 | constructor].
  - apply (proj2 (NewAirClient_last_option_wins _ _
                    [airsample.WithTimeout 1; airsample.WithRequestDelay 2]
                    [airsample.WithTimeout 4] 3)).
    constructor; [by exists 4 | constructor].
Defined.

(** X20: With options built by [WithTimeout] and [WithRequestDelay] only, the
    client keeps the base identifier and the key it was given and an empty
    table identifier; its timeout is 120 seconds unless a [WithTimeout] is
    among the options, its request delay 200 milliseconds unless a
    [WithRequestDelay] is. *)
Theorem NewAirClient_defaults (baseId apiKey : string)
    (opts : list airsample.Option_) :
  Forall known_option opts ->
  let client := airsample.NewAirClient baseId apiKey opts in
  airsample.BaseId client = baseId /\
  airsample.ApiKey client = apiKey /\
  airsample.TableId client = "" /\
  (airsample.client_Timeout client = 120 * airsample.Second
   \/ In (airsample.WithTimeout (airsample.client_Timeout client)) opts) /\
  (airsample.requestDelay client = 200 * airsample.Millisecond
   \/ In (airsample.WithRequestDelay (airsample.requestDelay client)) opts).
Proof.
  cbv zeta. induction opts as [|opt opts IH] using rev_ind; intros Hall.
  - cbn. split_and!; try reflexivity; by left.
  - apply Forall_app in Hall as [Hopts Hopt]. apply Forall_cons in Hopt as [Hopt _].
    destruct (IH Hopts) as (Hb & Hk & Ht & Htime & Hdelay).
    rewrite NewAirClient_snoc.
    destruct Hopt as [[t ->]|[d ->]];
      cbn [airsample.WithTimeout airsample.WithRequestDelay airsample.BaseId
           airsample.ApiKey airsample.TableId airsample.client_Timeout
           airsample.requestDelay];
      split_and!; try done.
    + right. apply in_or_app. right. by left.
    + destruct Hdelay as [?|?]; [by left|right; apply in_or_app; by left].
    + destruct Htime as [?|?]; [by left|right; apply in_or_app; by left].
    + right. apply in_or_app. right. by left.
Qed.

Lemma NewAirClient_defaults_witness :
  let client := airsample.NewAirClient "appXXXXXXXXXXXXXX" "keyXXXXXXXXXXXXXX"
                  [airsample.WithRequestDelay 5; airsample.WithRequestDelay 7] in
  airsample.BaseId client = "appXXXXXXXXXXXXXX" /\
  airsample.ApiKey client = "keyXXXXXXXXXXXXXX" /\
  airsample.TableId client = "" /\
  (airsample.client_Timeout client = 120 * airsample.Second
   \/ In (airsample.WithTimeout (airsample.client_Timeout client))
        [airsample.WithRequestDelay 5; airsample.WithRequestDelay 7]) /\
  (airsample.requestDelay client = 200 * airsample.Millisecond
   \/ In (airsample.WithRequestDelay (airsample.requestDelay client))
        [airsample.WithRequestDelay 5; airsample.WithRequestDelay 7]).
Proof.
  apply (NewAirClient_defaults "appXXXXXXXXXXXXXX" "keyXXXXXXXXXXXXXX"
           [airsample.WithRequestDelay 5; airsample.WithRequestDelay 7]).
  constructor; [right; eexists; reflexivity|].
  constructor; [right; eexists; reflexivity|]. constructor.
Defined.

(** ** Where the candidate comes from *)

Lemma plain_command_state (envVars : env.Env) (w : World) (update : Update)
    (m : Message) (s : State) :
  allowed envVars update m ->
  IsCommand m = true ->
  Command m <> "getpost" ->
  final (iteration envVars w update s) = s
  /\ store_calls (calls (iteration envVars w update s)) = [].
Proof.
  intros Hallowed Hcmd Hname. enter_turn Hallowed Hcmd.
  unfold on_command. rewrite (proj2 (String.eqb_neq _ _) Hname).
  repeat match goal with
         | |- context [String.eqb ?a ?b] => destruct (String.eqb a b)
         end;
    cbn [ret outcome final calls]; destruct (Send_err w); by split.
Qed.

(** X11: A record is in the slot after a turn only if it was there before, or
    if this turn was a fetch of an allowed sender whose query listed it as
    the first record outside the skip cache. *)
Theorem slot_comes_from_query (envVars : env.Env) (w : World)
    (update : Update) (s : State) (q : airtable.Record_) :
  currentPost (final (iteration envVars w update s)) = Some q ->
  currentPost s = Some q
  \/ exists m records,
       allowed envVars update m /\
       IsCommand m = true /\
       Command m = "getpost" /\
       Do_answer w = inr records /\
       first_absent (cache s) (now w) records q.
Proof.
  destruct (allowed_or_not envVars update) as [[m Hm]|Hno].
  - destruct (IsCommand m) eqn:Hcmd.
    + destruct (String.eqb_spec (Command m) "getpost") as [Hname|Hname].
      * destruct (Do_answer w) as [err|records] eqn:Hdo.
        -- enter_turn Hm Hcmd.
           rewrite Hname, on_command_getpost, getpost_run, Hdo. by left.
        -- rewrite (getpost_turn _ _ _ _ _ _ Hm Hcmd Hname Hdo). cbv zeta.
           destruct (range_Records_cases w records s)
             as [(p & Hfirst & ->)|[(_ & ->)|(_ & ->)]];
             cbn [outcome final calls currentPost].
           ++ intros Hq. right. exists m, records. split_and!; try done.
              destruct (Send_err w); cbn [final currentPost] in Hq;
                by injection Hq as <-.
           ++ intros Hq. left.
              destruct (currentPost s) eqn:Hcp; [destruct (Send_err w)|];
                cbn [final] in Hq; congruence.
           ++ by left.
      * intros Hq. left.
        destruct (plain_command_state envVars w update m s Hm Hcmd Hname)
          as [Hfinal _].
        by rewrite Hfinal in Hq.
    + enter_turn Hm Hcmd.
      match goal with
      | |- currentPost (final ?X) = _ -> _ =>
          assert (Hkeep : currentPost (final X) = currentPost s
                          \/ currentPost (final X) = None)
      end.
      { unfold on_text.
        repeat match goal with
               | |- context [String.eqb ?a ?b] => destruct (String.eqb a b)
               end.
        - rewrite approve_run.
          destruct (currentPost s) eqn:Hcp, (UpdateRecordPartial_err w),
            (UpdateRecordPartial_Records w);
            cbn [outcome final]; destruct (Send_err w);
            cbn [final currentPost]; auto.
        - rewrite reject_run.
          destruct (currentPost s) eqn:Hcp, (UpdateRecordPartial_err w),
            (UpdateRecordPartial_Records w);
            cbn [outcome final]; destruct (Send_err w);
            cbn [final currentPost]; auto.
        - rewrite skip_run. destruct (currentPost s) as [p|] eqn:Hcp; [|auto].
          destruct (guid p) as [[g|b]|]; cbn [outcome final];
            try destruct (Send_err w); cbn [final currentPost]; auto.
        - rewrite unsupported_run. cbn [outcome final].
          destruct (Send_err w); cbn [final currentPost]; auto. }
      intros Hq. left. destruct Hkeep as [Hk|Hk]; rewrite Hk in Hq; [done|].
      discriminate.
  - intros Hq. left. revert Hq. unfold iteration.
    destruct (FromChat update) as [chat|] eqn:Hchat; [|done].
    destruct (helpers.IDContains _ _) eqn:Hin; cbn [negb]; [|done].
    destruct (Message_ update) as [m|] eqn:Hmsg; [|done].
    exfalso. apply (Hno m). split; [done|].
    unfold FromChat in Hchat. rewrite Hmsg in Hchat. by injection Hchat as <-.
Qed.

Lemma slot_comes_from_query_witness :
  currentPost init = Some Sample.postA
  \/ exists m records,
       allowed Sample.envVars (snd Sample.first_fetch) m /\
       IsCommand m = true /\
       Command m = "getpost" /\
       Do_answer (fst Sample.first_fetch) = inr records /\
       first_absent (cache init) (now (fst Sample.first_fetch)) records
         Sample.postA.
Proof.
  apply (slot_comes_from_query Sample.envVars (fst Sample.first_fetch)
           (snd Sample.first_fetch) init Sample.postA).
  vm_compute. reflexivity.
Defined.
